(** * Docs MCP server: content provisioning, update scheduling and the tool handler

    A shallow embedding of [scripts/build.js] and [src/index.js].

    The JavaScript is asynchronous but strictly sequential (every call is
    awaited), so each function is embedded as a computation in a state and
    exception monad over a [World]: the data directory, the module-level
    variables [git] and [updateTimer], the pending timers of the event loop, a
    clock, and the trace of the calls made to the collaborators (fs-extra,
    simple-git, axios, tar, glob, the search library, the MCP transport).
    What a collaborator answers is not decided by the program: it is read from
    an environment [Env] of oracles that see every call made so far, the
    call they answer first, so an answer may change from one call to the
    next. *)

From Stdlib Require Import ZArith String Ascii List Bool Lia.
From stdpp Require Import base option list gmap strings.

Set Warnings "-register-all".

(** ** Data *)

(** A path relative to a directory, as its list of components. *)
Abbreviation path := (list string).

(** The regular files below a directory, by relative path.  Sub-directories
    are not represented on their own: a directory is the set of its files,
    and an entry that holds no file is known to the environment only. *)
Abbreviation Tree := (gmap (list string) (list Byte.byte)).

(** The fields of the loaded configuration that the two programs read.
    [None] stands for [null] or [undefined]. *)
Record Config := {
  dataDir : string;
  includeDir : option string;
  gitUrl : option string;
  gitRef : option string;
  autoUpdateInterval : Z;
  ignorePatterns : list string;
  toolName : string;
  toolDescription : string
}.

(** JavaScript truthiness of a value that is a string, [null] or [undefined]. *)
Definition truthy (o : option string) : bool :=
  match o with
  | Some s => negb (s =? EmptyString)%string
  | None => false
  end.

(** The configuration kinds of the specification, as the code tests them:
    [gitUrl] first, then [includeDir]. *)
Inductive SourceKind := repository | staticDir | none.

Definition sourceKind (c : Config) : SourceKind :=
  if truthy (gitUrl c) then repository
  else if truthy (includeDir c) then staticDir
  else none.

(** JSON values, for the arguments of a tool call. *)
Inductive JsVal :=
| JUndefined
| JNull
| JBool (b : bool)
| JNum (n : Z)
| JStr (s : string)
| JArr (items : list JsVal)
| JObj (fields : list (string * JsVal)).

Inductive ErrorCode := MethodNotFound.

(** Thrown values.  Every value thrown in the two programs is an [Error]
    object; [McpError] carries the message given to its constructor. *)
Inductive Err :=
| Error (message : string)
| TypeError (message : string)
| McpError (code : ErrorCode) (message : string).

(** The options object handed to [glob]. *)
Record GlobOptions := {
  cwd : option string;
  nodir : bool;
  ignore : list string;
  dot : bool;
  gitignore : bool
}.

(** The options object handed to [search]. *)
Record SearchOptions := {
  so_path : string;
  so_query : JsVal;
  so_maxTokens : Z
}.

(** The result object of the tool-call handler. *)
Record ToolResult := {
  text : string;
  isError : bool
}.

(** The answer to [tools/list]: a tool with its input schema.  The
    description texts of the schema properties are left out. *)
Record SchemaProperty := {
  prop_type : string;
  prop_default : JsVal          (* [JUndefined]: the property has no default *)
}.

Record InputSchema := {
  schema_type : string;
  properties : list (string * SchemaProperty);
  required : list string
}.

Record Tool := {
  tool_name : string;
  tool_description : string;
  inputSchema : InputSchema
}.

(** The payload of [git.status()] that is read. *)
Record StatusResult := {
  behind : Z;
  tracking : string
}.

(** Console output.  Interpolated configuration values are left out of the
    fixed texts; values that depend on the run are kept. *)
Inductive LogMsg :=
| Msg (line : string)
| MsgErr (line : string) (e : Err)
| MsgBehind (n : Z) (branch : string)
| MsgFound (n : nat)
| MsgCopied (n : nat)
| MsgArgs (args : JsVal)
| MsgOptions (o : SearchOptions).

(** One call to a collaborator, recorded when the call is made.  The two
    calls that start writing a content source into the data directory also
    record the directory as it is at that moment. *)
Inductive Event :=
| EnsureDir
| EmptyDir
| Readdir
| EnsureParentDir (file : path)
| Copy (file : path)
| ExistsConfig
| WriteConfig
| Chmod
| Glob (o : GlobOptions)
| HttpGet (url : string)
| TarExtract (strip : nat) (seen : option Tree)
| GitClone (url : option string) (ref : option string) (depth : Z) (seen : option Tree)
| GitCheckIsRepo
| GitFetch
| GitStatus
| GitPull (remote : string) (ref : option string)
| SetTimeout (id : nat) (delay : Z)
| ClearTimeout (id : nat)
| Connect
| Search (o : SearchOptions)
| Console (m : LogMsg).

(** ** The world *)

Record World := mkWorld {
  dataDirTree : option Tree;   (* the files of [config.dataDir]; [None]: no such directory *)
  dataDirRepo : bool;          (* [config.dataDir] is a git work tree *)
  includeTree : option Tree;   (* the files of [config.includeDir]; [None]: missing or unreadable *)
  configFile : bool;           (* docs-mcp.config.json exists *)
  git : bool;                  (* the module-level [git] is not null *)
  updateTimer : option nat;    (* the module-level [updateTimer] *)
  timers : gmap nat Z;         (* pending timeouts of the event loop: id to due time (ms) *)
  nextTimer : nat;
  clock : Z;                   (* ms *)
  trace : list Event           (* most recent call first *)
}.

Definition set_dataDirTree (t : option Tree) (w : World) : World :=
  mkWorld t (dataDirRepo w) (includeTree w) (configFile w) (git w) (updateTimer w)
          (timers w) (nextTimer w) (clock w) (trace w).

Definition set_dataDirRepo (b : bool) (w : World) : World :=
  mkWorld (dataDirTree w) b (includeTree w) (configFile w) (git w) (updateTimer w)
          (timers w) (nextTimer w) (clock w) (trace w).

Definition set_configFile (b : bool) (w : World) : World :=
  mkWorld (dataDirTree w) (dataDirRepo w) (includeTree w) b (git w) (updateTimer w)
          (timers w) (nextTimer w) (clock w) (trace w).

Definition set_git (b : bool) (w : World) : World :=
  mkWorld (dataDirTree w) (dataDirRepo w) (includeTree w) (configFile w) b (updateTimer w)
          (timers w) (nextTimer w) (clock w) (trace w).

Definition set_updateTimer (t : option nat) (w : World) : World :=
  mkWorld (dataDirTree w) (dataDirRepo w) (includeTree w) (configFile w) (git w) t
          (timers w) (nextTimer w) (clock w) (trace w).

Definition set_timers (ts : gmap nat Z) (n : nat) (w : World) : World :=
  mkWorld (dataDirTree w) (dataDirRepo w) (includeTree w) (configFile w) (git w) (updateTimer w)
          ts n (clock w) (trace w).

Definition record (ev : Event) (dt : N) (w : World) : World :=
  mkWorld (dataDirTree w) (dataDirRepo w) (includeTree w) (configFile w) (git w) (updateTimer w)
          (timers w) (nextTimer w) (clock w + Z.of_N dt)%Z (ev :: trace w).

(** The calls of a run in the order they were made. *)
Definition history (w : World) : list Event := rev (trace w).

(** ** The environment *)

(** A file entry of a downloaded archive: the components of its path in
    the archive, as the slashes separate them, and its bytes.  The entries
    for directories are left out, as a [Tree] holds files only. *)
Abbreviation TarEntry := (list string * list Byte.byte)%type.

(** What a copy that fails has done to its target. *)
Inductive Leftover :=
| Unwritten               (* nothing: the target is as it was *)
| Removed                 (* the target was removed *)
| Truncated (n : nat).    (* the first [n] bytes of the source were written *)

Record Env := {
  (* how long a call takes, in ms *)
  elapsed : Event -> N;
  (* fs-extra *)
  ensureDir_error : list Event -> option Err;
  emptyDir_error : list Event -> option Err;
  readdir_error : list Event -> option Err;
  (* the entries of the data directory that hold no regular file, such as a
     sub-directory without files, which [readdir] lists all the same *)
  readdir_others : list Event -> list string;
  ensureParent_error : list Event -> option Err;
  copy_error : list Event -> option Err;
  copy_leftover : list Event -> Leftover;
  writeFile_error : list Event -> option Err;
  chmod_error : list Event -> option Err;
  (* simple-git: a clone and a pull answer with the work tree they check out *)
  clone_answer : list Event -> Err + Tree;
  checkIsRepo_error : list Event -> option Err;
  fetch_error : list Event -> option Err;
  status_answer : list Event -> Err + StatusResult;
  pull_answer : list Event -> Err + Tree;
  (* axios: the entries of the archive served at the URL *)
  http_answer : list Event -> Err + list TarEntry;
  (* tar: [Some (n, e)] makes the extraction stop with [e] after n entries *)
  tar_abort : list Event -> option (nat * Err);
  (* the response stream: [Some n] makes it break off after n entries *)
  download_stall : list Event -> option nat;
  (* glob: the pattern language, the git-ignore rules of a directory, and
     the answer for a directory that is missing or cannot be read *)
  glob_match : string -> path -> bool;
  git_ignored : Tree -> path -> bool;
  glob_missing : Err + list path;
  (* the search library, which reads the data directory, and the MCP SDK *)
  search_answer : list Event -> option Tree -> Err + string;
  connect_error : list Event -> option Err;
  mcp_message : ErrorCode -> string -> string
}.

(** ** The monad *)

Inductive Outcome (A : Type) :=
| Ret (a : A)            (* the function returned [a] *)
| Throw (e : Err)        (* it threw [e] *)
| Exit (code : Z).       (* the process ended with [code] *)

Arguments Ret {A} a.
Arguments Throw {A} e.
Arguments Exit {A} code.

Definition M (A : Type) : Type := World -> Outcome A * World.

Definition ret {A} (a : A) : M A := fun w => (Ret a, w).

Definition bind {A B} (m : M A) (k : A -> M B) : M B :=
  fun w =>
    match m w with
    | (Ret a, w') => k a w'
    | (Throw e, w') => (Throw e, w')
    | (Exit c, w') => (Exit c, w')
    end.

Definition throw {A} (e : Err) : M A := fun w => (Throw e, w).

(** [process.exit(code)]: nothing runs afterwards, no handler and no
    [finally] block. *)
Definition process_exit {A} (code : Z) : M A := fun w => (Exit code, w).

(** [await] of a promise that is never settled, with nothing else pending:
    the function does not resume, no handler and no [finally] block runs,
    and the process ends with code 0 once the event loop is empty. *)
Definition never_settles {A} : M A := fun w => (Exit 0, w).

(** [try { m } catch (error) { h error }] *)
Definition try_catch {A} (m : M A) (h : Err -> M A) : M A :=
  fun w =>
    match m w with
    | (Throw e, w') => h e w'
    | r => r
    end.

(** [try { m } finally { f }], for a [finally] block without [return]. *)
Definition try_finally {A} (m : M A) (f : M unit) : M A :=
  fun w =>
    match m w with
    | (Exit c, w') => (Exit c, w')
    | (r, w') =>
        match f w' with
        | (Ret _, w'') => (r, w'')
        | (Throw e, w'') => (Throw e, w'')
        | (Exit c, w'') => (Exit c, w'')
        end
    end.

Definition get : M World := fun w => (Ret w, w).
Definition modify (f : World -> World) : M unit := fun w => (Ret tt, f w).

Notation "x <- m ;; k" := (bind m (fun x => k))
  (at level 100, m at next level, right associativity).
Notation "m ;; k" := (bind m (fun _ => k))
  (at level 100, right associativity).

(** [for (const x of xs) { body x }] *)
Fixpoint for_of {A} (xs : list A) (body : A -> M unit) : M unit :=
  match xs with
  | [] => ret tt
  | x :: rest => body x ;; for_of rest body
  end.

(** ** The pattern of [downloadAndExtractTarball]

    [/github\.com\/([^/]+)\/([^/]+?)(\.git)?$/], matched as [String.match]
    does: at the leftmost position where the pattern matches. *)

Definition is_slash (c : ascii) : bool := (c =? "/")%char.

(** [s] with the prefix [p] removed, when [s] starts with [p]. *)
Fixpoint strip_prefix (p s : string) : option string :=
  match p, s with
  | EmptyString, _ => Some s
  | String a p', String b s' => if (a =? b)%char then strip_prefix p' s' else None
  | String _ _, EmptyString => None
  end.

(** The longest prefix of [s] without a slash, and what follows it.  The
    greedy group [([^/]+)] can only end there: it is followed by [\/], and a
    shorter run is followed by a character that is not a slash. *)
Fixpoint span_segment (s : string) : string * string :=
  match s with
  | EmptyString => (EmptyString, EmptyString)
  | String c rest =>
      if is_slash c then (EmptyString, s)
      else let (seg, tl) := span_segment rest in (String c seg, tl)
  end.

(** [([^/]+?)(\.git)?$]: the lazy group takes one character that is not a
    slash, then stops as soon as what is left is [.git] or nothing. *)
Fixpoint lazy_segment (s : string) : option string :=
  match s with
  | EmptyString => None
  | String c rest =>
      if is_slash c then None
      else if ((rest =? ".git") || (rest =? EmptyString))%string then Some (String c EmptyString)
      else option_map (String c) (lazy_segment rest)
  end.

(** The pattern, anchored at the start of [s]: groups 1 and 2. *)
Definition match_here (s : string) : option (string * string) :=
  match strip_prefix "github.com/" s with
  | None => None
  | Some after_host =>
      match span_segment after_host with
      | (EmptyString, _) => None
      | (owner, String c after_owner) =>
          if is_slash c then option_map (pair owner) (lazy_segment after_owner)
          else None
      | (_, EmptyString) => None
      end
  end.

(** [url.match(pattern)]: the leftmost start position that matches. *)
Fixpoint github_match (url : string) : option (string * string) :=
  match match_here url with
  | Some groups => Some groups
  | None =>
      match url with
      | EmptyString => None
      | String _ rest => github_match rest
      end
  end.

(** ** tar and glob *)

(** A component that is no step into a directory: resolving the path drops
    it. *)
Definition is_dot (c : string) : bool :=
  ((c =? EmptyString) || (c =? "."))%string.

(** Where [tar.x({ strip })] writes the entry at [p], below the target
    directory: the leading [strip] components are removed; an entry without
    a component left is skipped, and so is one with a [..] component. *)
Definition tar_target (strip : nat) (p : path) : option path :=
  let rest := drop strip p in
  if existsb (String.eqb "..") rest then None
  else
    match List.filter (fun c => negb (is_dot c)) rest with
    | [] => None
    | q => Some q
    end.

(** A file of [t] keeps [p] from being written as a file: it is at a
    directory on the way to [p], or it lies below [p]. *)
Definition in_the_way (t : Tree) (p : path) : bool :=
  existsb (fun q : path => bool_decide (q ≠ p ∧ (q `prefix_of` p ∨ p `prefix_of` q)))
          (map_to_list t).*1.

(** [tar.x({ strip })] on one entry.  A file and a directory cannot share a
    name: the entry that meets a file where it needs a directory, or a
    directory with files where it is to be written, is skipped. *)
Definition tar_write (strip : nat) (t : Tree) (e : TarEntry) : Tree :=
  match tar_target strip e.1 with
  | Some p => if in_the_way t p then t else <[ p := e.2 ]> t
  | None => t
  end.

Definition tar_extract (strip : nat) (entries : list TarEntry) (t : Tree) : Tree :=
  foldl (tar_write strip) t entries.

(** A path with a component that starts with a dot. *)
Definition hidden (p : path) : bool :=
  existsb (fun c => String.prefix "." c) p.

(** The names of the entries directly below a directory. *)
Definition top_level (t : Tree) : list string :=
  remove_dups ((fun p : list string => default EmptyString (head p)) <$> (map_to_list t).*1).

(** ** Calls to the collaborators *)

Section Program.

Variable env : Env.
Variable config : Config.

(** Every call is recorded and takes the time the environment gives it. *)
Definition call (ev : Event) : M unit :=
  fun w => (Ret tt, record ev (elapsed env ev) w).

Definition console (m : LogMsg) : M unit := call (Console m).

Definition raise_if (oracle : list Event -> option Err) : M unit :=
  fun w =>
    match oracle (trace w) with
    | Some e => (Throw e, w)
    | None => (Ret tt, w)
    end.

Definition answer {A} (oracle : list Event -> Err + A) : M A :=
  fun w =>
    match oracle (trace w) with
    | inl e => (Throw e, w)
    | inr a => (Ret a, w)
    end.

(** [fs.ensureDir(dataDir)], [fs.ensureDirSync(dataDir)] *)
Definition fs_ensureDir : M unit :=
  call EnsureDir ;;
  raise_if (ensureDir_error env) ;;
  modify (fun w => set_dataDirTree (Some (default ∅ (dataDirTree w))) w).

(** [fs.emptyDir(dataDir)]: the directory exists and is empty afterwards. *)
Definition fs_emptyDir : M unit :=
  call EmptyDir ;;
  raise_if (emptyDir_error env) ;;
  modify (fun w => set_dataDirRepo false (set_dataDirTree (Some ∅) w)).

(** [fs.readdir(dataDir)]: the names at the top of the files of the
    directory, and the entries that hold no file. *)
Definition fs_readdir : M (list string) :=
  call Readdir ;;
  raise_if (readdir_error env) ;;
  w <- get ;;
  match dataDirTree w with
  | None => throw (Error "ENOENT")
  | Some t => ret (top_level t ++ readdir_others env (trace w))
  end.

(** [fs.ensureDir(path.dirname(path.join(dataDir, file)))] *)
Definition fs_ensureParentDir (file : path) : M unit :=
  call (EnsureParentDir file) ;;
  raise_if (ensureParent_error env) ;;
  modify (fun w => set_dataDirTree (Some (default ∅ (dataDirTree w))) w).

(** The target directory after a copy of [bytes] to [file] that failed. *)
Definition leave (l : Leftover) (file : path) (bytes : list Byte.byte) (t : Tree) : Tree :=
  match l with
  | Unwritten => t
  | Removed => delete file t
  | Truncated n => <[ file := take n bytes ]> t
  end.

(** [fs.copy(path.join(includeDir, file), path.join(dataDir, file))].  The
    copy is not atomic: one that fails may have written a part of the target
    or have removed it. *)
Definition fs_copy (file : path) : M unit :=
  call (Copy file) ;;
  w <- get ;;
  match includeTree w ≫= (fun t : Tree => t !! file), dataDirTree w with
  | Some bytes, Some t =>
      match copy_error env (trace w) with
      | Some e =>
          modify (set_dataDirTree (Some (leave (copy_leftover env (trace w)) file bytes t))) ;;
          throw e
      | None => modify (set_dataDirTree (Some (<[ file := bytes ]> t)))
      end
  | _, _ =>
      raise_if (copy_error env) ;;
      throw (Error "ENOENT")
  end.

(** Modelled from the spec: the enumeration of the [glob] library, which is
    not part of the repository.  Following section 4.4 it lists the files
    below the source directory (a [Tree] holds no directory entry, so
    [nodir] has nothing to remove), leaves out those that an [ignore] pattern
    matches and, with [gitignore], those that the ignore files found in the
    directory exclude.  What a pattern matches, what the ignore files
    exclude, and what the library answers for a directory that is missing or
    cannot be read, is left to the environment. *)
Definition glob_files (o : GlobOptions) (t : Tree) : list path :=
  List.filter
    (fun p : list string =>
       (dot o || negb (hidden p))
       && negb (existsb (fun pat => glob_match env pat p) (ignore o))
       && negb (gitignore o && git_ignored env t p))
    (map_to_list t).*1.

Definition glob (o : GlobOptions) : M (list path) :=
  call (Glob o) ;;
  w <- get ;;
  match includeTree w with
  | None => answer (fun _ => glob_missing env)
  | Some t => ret (glob_files o t)
  end.

(** [simpleGit().clone(url, dataDir, ['--branch', ref, '--depth', depth])]:
    on success the checked-out files are in the directory, which is then a
    work tree. *)
Definition git_clone (url ref : option string) (depth : Z) : M unit :=
  w <- get ;;
  call (GitClone url ref depth (dataDirTree w)) ;;
  t <- answer (clone_answer env) ;;
  modify (fun w => set_dataDirRepo true
                     (set_dataDirTree (Some (t ∪ default ∅ (dataDirTree w))) w)).

(** A method call on the module-level [git], which may still be [null]. *)
Definition on_git {A} (m : M A) : M A :=
  w <- get ;;
  if git w then m else throw (TypeError "Cannot read properties of null").

Definition git_checkIsRepo : M bool :=
  on_git (call GitCheckIsRepo ;;
          raise_if (checkIsRepo_error env) ;;
          w <- get ;;
          ret (dataDirRepo w)).

Definition git_fetch : M unit :=
  on_git (call GitFetch ;; raise_if (fetch_error env)).

Definition git_status : M StatusResult :=
  on_git (call GitStatus ;; answer (status_answer env)).

(** [git.pull(remote, ref)]: on success the work tree is the one pulled. *)
Definition git_pull (remote : string) (ref : option string) : M unit :=
  on_git (call (GitPull remote ref) ;;
          t <- answer (pull_answer env) ;;
          modify (set_dataDirTree (Some t))).

(** [axios({ method: 'get', url, responseType: 'stream' })] *)
Definition axios_get (url : string) : M (list TarEntry) :=
  call (HttpGet url) ;;
  answer (http_answer env).

(** [response.data.pipe(tar.x({ strip, C: dataDir }))], awaited through a
    promise that the [finish] and [error] events of the tar stream settle,
    lines 135-145.  The entries are written as they arrive, so an extraction
    that stops with an error leaves the entries written so far.  [pipe] does
    not pass an error of the response stream on to the tar stream: when the
    download breaks off, neither event comes and the promise is never
    settled. *)
Definition tar_x (strip : nat) (entries : list TarEntry) : M unit :=
  w <- get ;;
  call (TarExtract strip (dataDirTree w)) ;;
  w <- get ;;
  match dataDirTree w with
  | None => throw (Error "ENOENT")
  | Some t =>
      match tar_abort env (trace w) with
      | Some (n, e) =>
          modify (set_dataDirTree (Some (tar_extract strip (take n entries) t))) ;;
          throw e
      | None =>
          match download_stall env (trace w) with
          | Some n =>
              modify (set_dataDirTree (Some (tar_extract strip (take n entries) t))) ;;
              never_settles
          | None =>
              modify (set_dataDirTree (Some (tar_extract strip entries t)))
          end
      end
  end.

(** ** scripts/build.js *)

Definition cloneGitRepo : M unit :=
  console (Msg "Cloning Git repository...") ;;
  try_catch
    (git_clone (gitUrl config) (gitRef config) 1 ;;
     console (Msg "Successfully cloned repository"))
    (fun error =>
       console (MsgErr "Error cloning Git repository:" error) ;;
       throw error).

(** The body of the loop of [copyIncludedDir], lines 89-96. *)
Definition copy_file (file : path) : M unit :=
  fs_ensureParentDir file ;;
  fs_copy file.

Definition copyIncludedDir : M unit :=
  console (Msg "Copying includeDir to dataDir...") ;;
  try_catch
    (files <- glob {| cwd := includeDir config; nodir := true;
                      ignore := ignorePatterns config; dot := true;
                      gitignore := true |} ;;
     console (MsgFound (length files)) ;;
     for_of files copy_file ;;
     console (MsgCopied (length files)))
    (fun error =>
       console (MsgErr "Error copying includeDir:" error) ;;
       throw error).

(** [config.gitRef || 'main'] *)
Definition ref_or_main : string :=
  if truthy (gitRef config) then default EmptyString (gitRef config) else "main".

Definition tarballUrl (owner repo : string) : string :=
  "https://github.com/" +:+ owner +:+ "/" +:+ repo +:+ "/archive/" +:+ ref_or_main +:+ ".tar.gz".

Definition downloadAndExtractTarball : M unit :=
  match gitUrl config with
  | None => throw (TypeError "Cannot read properties of null (reading 'match')")
  | Some url =>
      match github_match url with
      | None =>
          console (Msg "Cannot determine tarball URL from gitUrl. Falling back to git clone.") ;;
          cloneGitRepo
      | Some (owner, repo) =>
          console (Msg "Attempting to download archive...") ;;
          try_catch
            (response <- axios_get (tarballUrl owner repo) ;;
             tar_x 1 response ;;
             console (Msg "Successfully downloaded and extracted archive"))
            (fun error =>
               console (MsgErr "Error downloading or extracting tarball:" error) ;;
               console (Msg "Falling back to git clone...") ;;
               try_catch
                 cloneGitRepo
                 (fun cloneError =>
                    console (MsgErr "Fallback git clone also failed:" cloneError) ;;
                    throw cloneError))
      end
  end.

Definition prepareDataDir : M unit :=
  console (Msg "Building docs-mcp package...") ;;
  fs_ensureDir ;;
  fs_emptyDir ;;
  (if truthy (gitUrl config) then
     if (0 <? autoUpdateInterval config)%Z then
       console (Msg "Auto-update enabled. Using git clone.") ;;
       cloneGitRepo
     else
       console (Msg "Auto-update disabled. Attempting to download tarball archive.") ;;
       downloadAndExtractTarball
   else if truthy (includeDir config) then
     copyIncludedDir
   else
     console (Msg "No includeDir or gitUrl specified. Created empty data directory.")) ;;
  console (Msg "Build completed successfully!").

Definition createDefaultConfig : M unit :=
  call ExistsConfig ;;
  w <- get ;;
  if configFile w then ret tt
  else
    call WriteConfig ;;
    raise_if (writeFile_error env) ;;
    modify (set_configFile true) ;;
    console (Msg "Created default configuration file").

Definition build : M unit :=
  try_catch
    (createDefaultConfig ;;
     prepareDataDir ;;
     call Chmod ;;
     raise_if (chmod_error env) ;;
     console (Msg "Made bin script executable"))
    (fun error =>
       console (MsgErr "Build failed:" error) ;;
       process_exit 1).

(** ** src/index.js: start-up and the update timer *)

(** Lines 45-52, run when the module is loaded. *)
Definition ensure_data_directory : M unit :=
  try_catch
    (fs_ensureDir ;;
     console (Msg "Ensured data directory exists"))
    (fun err =>
       console (MsgErr "Failed to ensure data directory exists" err) ;;
       process_exit 1).

(** The longest delay of a timeout, in ms: [2^31 - 1]. *)
Definition TIMEOUT_MAX : Z := 2147483647.

(** The delay a timeout really has: Node sets a delay below 1 or above
    [TIMEOUT_MAX] to 1. *)
Definition timer_delay (delay : Z) : Z :=
  if ((1 <=? delay) && (delay <=? TIMEOUT_MAX))%Z then delay else 1%Z.

(** [setTimeout(() => this.checkForUpdates(), delay)]: the only callback
    ever registered, so a pending timeout is its id and its due time. *)
Definition setTimeout (delay : Z) : M nat :=
  w <- get ;;
  call (SetTimeout (nextTimer w) delay) ;;
  modify (fun w' => set_timers (<[ nextTimer w := (clock w' + timer_delay delay)%Z ]> (timers w'))
                               (S (nextTimer w)) w') ;;
  ret (nextTimer w).

Definition clearTimeout (id : nat) : M unit :=
  call (ClearTimeout id) ;;
  modify (fun w => set_timers (delete id (timers w)) (nextTimer w) w).

(** [if (updateTimer) clearTimeout(updateTimer); updateTimer = null;] *)
Definition clear_updateTimer : M unit :=
  w <- get ;;
  match updateTimer w with
  | Some id => clearTimeout id
  | None => ret tt
  end ;;
  modify (set_updateTimer None).

(** The [try] block of [checkForUpdates], lines 213-232. *)
Definition checkForUpdates_try : M unit :=
  isRepo <- git_checkIsRepo ;;
  if negb isRepo then
    console (Msg "Data directory is not a Git repository. Skipping update.")
  else
    git_fetch ;;
    status <- git_status ;;
    if (0 <? behind status)%Z then
      console (MsgBehind (behind status) (tracking status)) ;;
      git_pull "origin" (gitRef config) ;;
      console (Msg "Documentation updated successfully.")
    else
      console (Msg "Documentation is up-to-date.").

Definition checkForUpdates : M unit :=
  if negb (truthy (gitUrl config)) then ret tt
  else
    console (Msg "Checking for documentation updates...") ;;
    try_finally
      (try_catch
         checkForUpdates_try
         (fun error =>
            console (MsgErr "Error checking for updates:" error)))
      (if (0 <? autoUpdateInterval config)%Z then
         id <- setTimeout (autoUpdateInterval config * 60 * 1000) ;;
         modify (set_updateTimer (Some id))
       else ret tt).

(** [this.downloadAndExtractTarballRuntime()], line 289.  The class
    [DocsMcpServer] declares [constructor], [setupToolHandlers],
    [executeDocsSearch], [checkForUpdates] and [run] and nothing else, and
    nothing is added to its prototype: the property is [undefined] and the
    call throws. *)
Definition downloadAndExtractTarballRuntime : M unit :=
  throw (TypeError "this.downloadAndExtractTarballRuntime is not a function").

Definition run : M unit :=
  try_catch
    (console (Msg "Starting Docs MCP server...") ;;
     console (Msg "Using data directory") ;;
     console (Msg "MCP Tool Name") ;;
     console (Msg "MCP Tool Description") ;;
     (if truthy (gitUrl config) then
        console (Msg "Using Git repository") ;;
        console (Msg "Auto-update interval")
      else if truthy (includeDir config) then
        console (Msg "Using static directory")
      else ret tt) ;;
     (if truthy (gitUrl config) then
        if (0 <? autoUpdateInterval config)%Z then
          console (Msg "Auto-update enabled. Initializing Git...") ;;
          modify (set_git true) ;;
          isRepo <- git_checkIsRepo ;;
          if negb isRepo then
            console (Msg "Directory is not a Git repository. Attempting initial clone...") ;;
            try_catch
              (items <- fs_readdir ;;
               (if (0 <? length items)%nat then
                  console (Msg "Data directory is not empty. Clearing before cloning.") ;;
                  fs_emptyDir
                else ret tt) ;;
               git_clone (gitUrl config) (gitRef config) 1 ;;
               console (Msg "Successfully cloned"))
              (fun cloneError =>
                 console (MsgErr "Error during initial clone:" cloneError) ;;
                 process_exit 1)
          else
            console (Msg "Directory is a Git repository. Proceeding with update check.") ;;
            checkForUpdates
        else
          console (Msg "Auto-update disabled. Initializing content from tarball...") ;;
          try_catch
            downloadAndExtractTarballRuntime
            (fun tarballError =>
               console (MsgErr "Failed to initialize from tarball:" tarballError) ;;
               process_exit 1) ;;
          clear_updateTimer
      else if truthy (includeDir config) then
        console (Msg "Using static content") ;;
        clear_updateTimer
      else
        console (Msg "No gitUrl or includeDir specified at runtime.") ;;
        clear_updateTimer) ;;
     call Connect ;;
     raise_if (connect_error env) ;;
     console (Msg "Docs MCP server running on stdio"))
    (fun error =>
       console (MsgErr "Error starting server:" error) ;;
       process_exit 1).

(** Loading the module: the data directory is ensured, then
    [new DocsMcpServer().run()].  The lookup of the package version (lines
    25-37), which only writes to the console, and the [SIGINT] handler are
    left out. *)
Definition main : M unit :=
  ensure_data_directory ;;
  run.

(** The event loop runs the callback of the pending timeout [id] at time
    [t]: not before it is due, and the timeout is then no longer pending. *)
Definition fire (id : nat) (t : Z) (w : World) : option (Outcome unit * World) :=
  match timers w !! id with
  | Some due =>
      if ((due <=? t) && (clock w <=? t))%Z then
        Some (checkForUpdates
                (mkWorld (dataDirTree w) (dataDirRepo w) (includeTree w) (configFile w)
                         (git w) (updateTimer w) (delete id (timers w)) (nextTimer w)
                         t (trace w)))
      else None
  | None => None
  end.

(** ** src/index.js: the tool-call handler *)

Record Request := {
  req_name : string;
  req_arguments : JsVal
}.

Definition js_truthy (v : JsVal) : bool :=
  match v with
  | JUndefined | JNull => false
  | JBool b => b
  | JNum n => negb (n =? 0)%Z
  | JStr s => negb (s =? EmptyString)%string
  | JArr _ | JObj _ => true
  end.

(** [typeof v === 'object'] *)
Definition typeof_object (v : JsVal) : bool :=
  match v with
  | JNull | JArr _ | JObj _ => true
  | _ => false
  end.

Fixpoint assoc (k : string) (fields : list (string * JsVal)) : JsVal :=
  match fields with
  | [] => JUndefined
  | (k', v) :: rest => if (k' =? k)%string then v else assoc k rest
  end.

(** [v.k] for a value that is neither [null] nor [undefined] *)
Definition get_prop (v : JsVal) (k : string) : JsVal :=
  match v with
  | JObj fields => assoc k fields
  | _ => JUndefined
  end.

Definition err_name (e : Err) : string :=
  match e with
  | Error _ => "Error"
  | TypeError _ => "TypeError"
  | McpError _ _ => "McpError"
  end.

(** [error.message] *)
Definition err_message (e : Err) : string :=
  match e with
  | Error m | TypeError m => m
  | McpError c m => mcp_message env c m
  end.

(** [error.message || String(error)] *)
Definition message_or_string (e : Err) : string :=
  if (err_message e =? EmptyString)%string then err_name e else err_message e.

Definition executeDocsSearch (args : JsVal) : M string :=
  try_catch
    (let options := {| so_path := dataDir config;
                       so_query := get_prop args "query";
                       so_maxTokens := 10000 |} in
     console (MsgOptions options) ;;
     call (Search options) ;;
     w <- get ;;
     answer (fun calls => search_answer env calls (dataDirTree w)))
    (fun error =>
       console (MsgErr "Error executing docs search:" error) ;;
       throw (McpError MethodNotFound
                ("Error executing docs search: " +:+ message_or_string error))).

(** The handler registered for [CallToolRequestSchema]. *)
Definition callTool (request : Request) : M ToolResult :=
  if negb (req_name request =? toolName config)%string then
    throw (McpError MethodNotFound
             ("Unknown tool: " +:+ req_name request +:+ ". Expected: " +:+ toolName config))
  else
    try_catch
      (console (Msg "Received request for tool") ;;
       console (MsgArgs (req_arguments request)) ;;
       (if negb (js_truthy (req_arguments request))
           || negb (typeof_object (req_arguments request))
        then throw (Error "Arguments must be an object")
        else ret tt) ;;
       let args := req_arguments request in
       (if negb (js_truthy (get_prop args "query"))
        then throw (Error "Query is required in arguments")
        else ret tt) ;;
       result <- executeDocsSearch args ;;
       ret {| text := result; isError := false |})
      (fun error =>
         console (MsgErr "Error executing tool:" error) ;;
         ret {| text := "Error executing " +:+ req_name request +:+ ": "
                        +:+ err_message error;
                isError := true |}).

(** The handler registered for [ListToolsRequestSchema], lines 96-118. *)
Definition listTools : M (list Tool) :=
  ret [ {| tool_name := toolName config;
           tool_description := toolDescription config;
           inputSchema :=
             {| schema_type := "object";
                properties :=
                  [ ("query", {| prop_type := "string"; prop_default := JUndefined |});
                    ("page", {| prop_type := "number"; prop_default := JNum 1 |}) ];
                required := ["query"] |} |} ].

(** The [SIGINT] listener that the constructor registers, lines 84-88.
    [server_close] is [this.server.close()], a method of the MCP SDK,
    awaited: it stands for all that happens until the call has settled,
    other callbacks included. *)
Definition sigint_handler (server_close : M unit) : M unit :=
  w <- get ;;
  match updateTimer w with
  | Some id => clearTimeout id
  | None => ret tt
  end ;;
  server_close ;;
  process_exit 0.

End Program.


(** * The vocabulary of the statements *)

(** ** Kinds of calls *)

(** Is this call a clone? *)
Definition is_clone (ev : Event) : bool :=
  match ev with
  | GitClone _ _ _ _ => true
  | _ => false
  end.

(** The calls of a synchronize cycle and of the scheduler. *)
Definition is_sync (ev : Event) : bool :=
  match ev with
  | GitFetch | GitStatus | GitPull _ _ | SetTimeout _ _ => true
  | _ => false
  end.



(** The console line that opens a synchronize cycle. *)
Definition is_cycle_start (ev : Event) : bool :=
  match ev with
  | Console (Msg "Checking for documentation updates...") => true
  | _ => false
  end.

Definition is_timeout (ev : Event) : bool :=
  match ev with
  | SetTimeout _ _ => true
  | _ => false
  end.

(** The options of every [Search] call among [calls]. *)
Definition searches (calls : list Event) : list SearchOptions :=
  omap (fun ev => match ev with Search o => Some o | _ => None end) calls.

(** The fields of an arguments object other than [page]. *)
Definition without_page (fields : list (string * JsVal)) : list (string * JsVal) :=
  List.filter (fun kv => negb (kv.1 =? "page")%string) fields.

(** ** Repository URLs and archives *)

(** A URL segment without a slash. *)
Fixpoint no_slash (s : string) : bool :=
  match s with
  | EmptyString => true
  | String c rest => negb (is_slash c) && no_slash rest
  end.

(** A non-empty URL segment without a slash: what [[^/]+] matches whole. *)
Definition segment (s : string) : bool :=
  negb (s =? EmptyString)%string && no_slash s.

(** [s] ends with [suffix]. *)
Fixpoint ends_with (suffix s : string) : bool :=
  (s =? suffix)%string ||
  match s with
  | EmptyString => false
  | String _ rest => ends_with suffix rest
  end.

(** [s] is a non-empty name followed by [.git]. *)
Definition has_git_suffix (s : string) : bool :=
  match s with
  | EmptyString => false
  | String _ rest => ends_with ".git" rest
  end.

(** An archive entry below the top-level directory [wrapper]. *)
Definition wrapped (wrapper : string) (e : TarEntry) : bool :=
  match e.1 with
  | top :: _ => (top =? wrapper)%string
  | [] => false
  end.

(** A path as archives of a repository have them: no component is empty,
    [.] or [..]. *)
Definition plain (p : path) : bool :=
  forallb (fun c => negb (is_dot c) && negb (c =? "..")%string) p.

(** The entries are files of one directory tree: no two entries have the
    same path, and no entry lies below the path of another. *)
Definition separate (entries : list TarEntry) : bool :=
  bool_decide (NoDup entries.*1)
  && forallb (fun p : path =>
                forallb (fun q : path => bool_decide (p `prefix_of` q -> p = q)) entries.*1)
             entries.*1.

(** ** What depends on the environment and the configuration *)

Section Vocabulary.

Variable env : Env.
Variable config : Config.

(** The options that [copyIncludedDir] hands to [glob]. *)
Definition copy_options : GlobOptions :=
  {| cwd := includeDir config; nodir := true; ignore := ignorePatterns config;
     dot := true; gitignore := true |}.

(** A file of the source directory survives the enumeration when no
    [ignorePatterns] glob matches it and the ignore files of the directory
    do not exclude it. *)
Definition included (src : Tree) (p : path) : bool :=
  negb (existsb (fun pat => glob_match env pat p) (ignorePatterns config))
  && negb (git_ignored env src p).

(** The options object that [executeDocsSearch] builds for a request. *)
Definition search_options (request : Request) : SearchOptions :=
  {| so_path := dataDir config;
     so_query := get_prop (req_arguments request) "query";
     so_maxTokens := 10000 |}.

(** The request names the tool and carries an arguments object with a
    truthy [query]: the handler gets as far as the search. *)
Definition reaches_search (request : Request) : bool :=
  (req_name request =? toolName config)%string
  && js_truthy (req_arguments request)
  && typeof_object (req_arguments request)
  && js_truthy (get_prop (req_arguments request) "query").

(** The calls on record when the search of a request is answered. *)
Definition calls_at_search (request : Request) (w : World) : list Event :=
  Search (search_options request)
  :: Console (MsgOptions (search_options request))
  :: Console (MsgArgs (req_arguments request))
  :: Console (Msg "Received request for tool")
  :: trace w.

End Vocabulary.

(** ** Further kinds of calls *)

(** A call of the static copy: the enumeration of the include directory and
    the copy of a file. *)
Definition is_static_copy (ev : Event) : bool :=
  match ev with
  | Glob _ | Copy _ | EnsureParentDir _ => true
  | _ => false
  end.

(** The archive download, the extraction, the enumeration or the copy of the
    include directory. *)
Definition is_archive_or_copy (ev : Event) : bool :=
  match ev with
  | HttpGet _ | TarExtract _ _ => true
  | _ => is_static_copy ev
  end.

(** A call to git, the archive download or the extraction. *)
Definition is_remote (ev : Event) : bool :=
  match ev with
  | HttpGet _ | TarExtract _ _ | GitClone _ _ _ _ | GitCheckIsRepo | GitFetch | GitStatus
  | GitPull _ _ => true
  | _ => false
  end.

(** The calls that only scripts/build.js has in its text. *)
Definition is_build_only (ev : Event) : bool :=
  match ev with
  | ExistsConfig | WriteConfig | Chmod => true
  | _ => is_archive_or_copy ev
  end.

(** The calls that only src/index.js has in its text. *)
Definition is_runtime_only (ev : Event) : bool :=
  match ev with
  | Readdir | GitCheckIsRepo | GitFetch | GitStatus | GitPull _ _
  | SetTimeout _ _ | ClearTimeout _ | Connect | Search _ => true
  | _ => false
  end.

(** A clone is shallow, of the configured URL at the configured ref. *)
Definition configured_clone (config : Config) (ev : Event) : Prop :=
  match ev with
  | GitClone url ref depth _ => url = gitUrl config /\ ref = gitRef config /\ depth = 1%Z
  | _ => True
  end.

(** The calls of a synchronize cycle: console lines, the check, the fetch,
    the status, a pull of the configured ref from [origin], and a timeout of
    one interval. *)
Definition cycle_call (config : Config) (ev : Event) : Prop :=
  match ev with
  | Console _ | GitCheckIsRepo | GitFetch | GitStatus => True
  | GitPull remote ref => remote = "origin"%string /\ ref = gitRef config
  | SetTimeout _ delay => delay = (autoUpdateInterval config * 60 * 1000)%Z
  | _ => False
  end.

Definition console_or_connect (ev : Event) : Prop :=
  match ev with
  | Console _ | Connect => True
  | _ => False
  end.

(** The number of slashes of a string. *)
Fixpoint slashes (s : string) : nat :=
  match s with
  | EmptyString => 0
  | String c rest => (if is_slash c then 1 else 0) + slashes rest
  end.

(** An HTTP request is for the archive, at the configured ref, of the
    repository that the last two segments of [gitUrl] name, [gitUrl] ending
    in [github.com/<owner>/<repo>] or [github.com/<owner>/<repo>.git]. *)
Definition archive_of (config : Config) (ev : Event) : Prop :=
  match ev with
  | HttpGet url =>
      exists before owner repo suffix,
        gitUrl config = Some (before +:+ "github.com/" +:+ owner +:+ "/" +:+ repo +:+ suffix) /\
        (suffix = EmptyString \/ suffix = ".git"%string) /\
        segment owner = true /\ segment repo = true /\
        url = "https://github.com/" +:+ owner +:+ "/" +:+ repo +:+ "/archive/"
              +:+ ref_or_main config +:+ ".tar.gz"
  | _ => True
  end.

(** ** What a program keeps, and how it ends *)

(** Every run of [m] takes a world to one that is related to it by [R]. *)
Definition keeps (R : World -> World -> Prop) {A} (m : M A) : Prop :=
  forall w, R w (snd (m w)).

(** The calls on record in [w'] are those of [w], followed by calls that
    all satisfy [P]. *)
Definition emits (P : Event -> Prop) (w w' : World) : Prop :=
  exists evs, trace w' = evs ++ trace w /\ Forall P evs.

(** Everything but the clock and the record of calls is as it was. *)
Definition untouched (w w' : World) : Prop :=
  dataDirTree w' = dataDirTree w /\ dataDirRepo w' = dataDirRepo w /\
  includeTree w' = includeTree w /\ configFile w' = configFile w /\
  git w' = git w /\ updateTimer w' = updateTimer w /\
  timers w' = timers w /\ nextTimer w' = nextTimer w.

(** A data directory that exists still exists. *)
Definition keeps_directory (w w' : World) : Prop :=
  is_Some (dataDirTree w) -> is_Some (dataDirTree w').

(** [m] never throws. *)
Definition never_throws {A} (m : M A) : Prop :=
  forall w e, fst (m w) <> Throw e.

(** When [m] ends the process, the exit code satisfies [C]. *)
Definition exits_in (C : Z -> Prop) {A} (m : M A) : Prop :=
  forall w c, fst (m w) = Exit c -> C c.

(** ** The serving process *)

(** What the event loop does once [main] has returned: it runs the callback
    of a pending timeout that is due, or the handler of a request.  The
    callbacks are taken one at a time, each from its start to its end, so
    the steps say where the process is between two callbacks, not where it
    is while one of them is suspended at an [await].  A callback that ends
    the process is not followed by another. *)
Inductive loop_step (env : Env) (config : Config) : World -> World -> Prop :=
| step_timeout id t w o w' :
    fire env config id t w = Some (o, w') ->
    (forall c, o <> Exit c) ->
    loop_step env config w w'
| step_listTools w o w' :
    listTools config w = (o, w') ->
    loop_step env config w w'
| step_callTool request w o w' :
    callTool env config request w = (o, w') ->
    (forall c, o <> Exit c) ->
    loop_step env config w w'.

(** The worlds in which the server is serving, between two callbacks:
    [main] has returned in a process that started with [git] and
    [updateTimer] at [null] (lines 43 and 55) and no pending timeout, and
    callbacks have run since. *)
Inductive serving (env : Env) (config : Config) : World -> Prop :=
| serving_start w0 w :
    git w0 = false ->
    updateTimer w0 = None ->
    timers w0 = ∅ ->
    main env config w0 = (Ret tt, w) ->
    serving env config w
| serving_step w w' :
    serving env config w ->
    loop_step env config w w' ->
    serving env config w'.

(** At most one timeout is pending, and it is the one in [updateTimer]. *)
Definition one_timer (w : World) : Prop :=
  timers w = ∅ \/ exists id due, updateTimer w = Some id /\ timers w = {[ id := due ]}.

(** The world after the event loop has run the callback of the timeout [id]
    at time [t]. *)
Definition fired (env : Env) (config : Config) (id : nat) (t : Z) (w : World) : World :=
  match fire env config id t w with
  | Some (_, w') => w'
  | None => w
  end.


(** ** Sample configurations, worlds and environments *)

Definition docs_config (url include : option string) (interval : Z) : Config :=
  {| dataDir := "data"; includeDir := include; gitUrl := url; gitRef := Some "main";
     autoUpdateInterval := interval;
     ignorePatterns := ["node_modules"; ".git"; "dist"; "build"; "coverage"];
     toolName := "search_docs"; toolDescription := "Search the documentation" |}.

Definition acme_url : option string := Some "https://github.com/acme/docs".

Definition readme : list Byte.byte := [Byte.x23; Byte.x20; Byte.x64; Byte.x6f; Byte.x63; Byte.x73].
Definition guide : list Byte.byte := [Byte.x67; Byte.x75; Byte.x69; Byte.x64; Byte.x65].

(** The work tree of the sample repository and its archive at [main]. *)
Definition docs_tree : Tree :=
  <[ ["README.md"] := readme ]> (<[ ["guides"; "start.md"] := guide ]> ∅).

Definition docs_archive : list TarEntry :=
  [ (["docs-main"; "README.md"], readme); (["docs-main"; "guides"; "start.md"], guide) ].

(** A local source directory for the static copy. *)
Definition site_tree : Tree :=
  <[ ["a.md"] := readme ]>
    (<[ ["node_modules"; "x.js"] := guide ]> (<[ ["sub"; "b.md"] := guide ]> ∅)).

(** An environment that answers every call the same way each time.  A
    pattern matches a path when it names one of its components, and a
    source directory that does not exist is enumerated as one without
    files, which is what the [glob] library does. *)
Definition steady_env (http : Err + list TarEntry) (abort : option (nat * Err))
    (clone : Err + Tree) (fetch : option Err) (status : Err + StatusResult)
    (pull : Err + Tree) (found : Err + string) : Env :=
  {| elapsed := fun _ => 1%N;
     ensureDir_error := fun _ => None;
     emptyDir_error := fun _ => None;
     readdir_error := fun _ => None;
     readdir_others := fun _ => [];
     ensureParent_error := fun _ => None;
     copy_error := fun _ => None;
     copy_leftover := fun _ => Unwritten;
     writeFile_error := fun _ => None;
     chmod_error := fun _ => None;
     clone_answer := fun _ => clone;
     checkIsRepo_error := fun _ => None;
     fetch_error := fun _ => fetch;
     status_answer := fun _ => status;
     pull_answer := fun _ => pull;
     http_answer := fun _ => http;
     tar_abort := fun _ => abort;
     download_stall := fun _ => None;
     glob_match := fun pat p => existsb (String.eqb pat) p;
     git_ignored := fun _ _ => false;
     glob_missing := inr [];
     search_answer := fun _ _ => found;
     connect_error := fun _ => None;
     mcp_message := fun _ m => "MCP error -32601: " +:+ m |}.

Definition fair_env : Env :=
  steady_env (inr docs_archive) None (inr docs_tree) None
             (inr {| behind := 0; tracking := "main" |}) (inr docs_tree) (inr "3 results").

(** A data directory holding [t], on a machine where nothing else has
    happened yet. *)
Definition fresh_world (t : option Tree) (isRepo : bool) (src : option Tree) : World :=
  mkWorld t isRepo src true false None ∅ 0 0 [].

(** A server that has initialised [git]: the world between two cycles. *)
Definition serving_world (t : option Tree) (isRepo : bool) : World :=
  mkWorld t isRepo None true true None ∅ 0 0 [].

(** An archive whose download breaks off after its first entry, and a
    clone that refuses the directory that is no longer empty. *)
Definition truncated_env : Env :=
  steady_env (inr docs_archive) (Some (1%nat, Error "unexpected end of file"))
             (inl (Error "destination path already exists and is not an empty directory"))
             None (inr {| behind := 0; tracking := "main" |}) (inr docs_tree) (inr "3 results").


(** A fetch that fails: the cycle logs the error and arms the timer. *)
Definition offline_env : Env :=
  steady_env (inl (Error "ENOTFOUND")) None (inl (Error "ENOTFOUND"))
             (Some (Error "could not resolve host"))
             (inr {| behind := 0; tracking := "main" |})
             (inl (Error "ENOTFOUND")) (inl (Error "search failed")).

(** A call of the tool with the given arguments object. *)
Definition install_request (fields : list (string * JsVal)) : Request :=
  {| req_name := "search_docs"; req_arguments := JObj fields |}.

(** The archive is not served, the clone works. *)
Definition no_archive_env : Env :=
  steady_env (inl (Error "Request failed with status code 404")) None (inr docs_tree) None
             (inr {| behind := 0; tracking := "main" |}) (inr docs_tree) (inr "3 results").

(** A read-only file system: no directory can be made, no file written. *)
Definition read_only_env : Env :=
  {| elapsed := elapsed fair_env;
     ensureDir_error := fun _ => Some (Error "EROFS: read-only file system");
     emptyDir_error := emptyDir_error fair_env;
     readdir_error := readdir_error fair_env;
     readdir_others := readdir_others fair_env;
     ensureParent_error := ensureParent_error fair_env;
     copy_error := copy_error fair_env;
     copy_leftover := copy_leftover fair_env;
     writeFile_error := fun _ => Some (Error "EROFS: read-only file system");
     chmod_error := chmod_error fair_env;
     clone_answer := clone_answer fair_env;
     checkIsRepo_error := checkIsRepo_error fair_env;
     fetch_error := fetch_error fair_env;
     status_answer := status_answer fair_env;
     pull_answer := pull_answer fair_env;
     http_answer := http_answer fair_env;
     tar_abort := tar_abort fair_env;
     download_stall := download_stall fair_env;
     glob_match := glob_match fair_env;
     git_ignored := git_ignored fair_env;
     glob_missing := glob_missing fair_env;
     search_answer := search_answer fair_env;
     connect_error := connect_error fair_env;
     mcp_message := mcp_message fair_env |}.

(** [e] on another machine: the data directory has the entries [others]
    that hold no file, a copy fails with [copy] and leaves [left], and the
    download breaks off as [stall] says. *)
Definition elsewhere (e : Env) (others : list string) (copy : option Err) (left : Leftover)
    (stall : option nat) : Env :=
  {| elapsed := elapsed e;
     ensureDir_error := ensureDir_error e;
     emptyDir_error := emptyDir_error e;
     readdir_error := readdir_error e;
     readdir_others := fun _ => others;
     ensureParent_error := ensureParent_error e;
     copy_error := fun _ => copy;
     copy_leftover := fun _ => left;
     writeFile_error := writeFile_error e;
     chmod_error := chmod_error e;
     clone_answer := clone_answer e;
     checkIsRepo_error := checkIsRepo_error e;
     fetch_error := fetch_error e;
     status_answer := status_answer e;
     pull_answer := pull_answer e;
     http_answer := http_answer e;
     tar_abort := tar_abort e;
     download_stall := fun _ => stall;
     glob_match := glob_match e;
     git_ignored := git_ignored e;
     glob_missing := glob_missing e;
     search_answer := search_answer e;
     connect_error := connect_error e;
     mcp_message := mcp_message e |}.

(** The download of the archive breaks off after its first entry. *)
Definition stalled_env : Env := elsewhere fair_env [] None Unwritten (Some 1%nat).

(** A disk that fills up: a copy fails after two bytes. *)
Definition full_disk_env : Env :=
  elsewhere fair_env [] (Some (Error "ENOSPC: no space left on device")) (Truncated 2) None.

(** The data directory holds a sub-directory without files. *)
Definition empty_guides_env : Env := elsewhere fair_env ["guides"] None Unwritten None.

(** The sample repository at another ref, and without a ref. *)
Definition docs_config_at (ref : option string) : Config :=
  {| dataDir := "data"; includeDir := None; gitUrl := acme_url; gitRef := ref;
     autoUpdateInterval := 0;
     ignorePatterns := ["node_modules"; ".git"; "dist"; "build"; "coverage"];
     toolName := "search_docs"; toolDescription := "Search the documentation" |}.

(** A checkout without a configuration file and without a data directory. *)
Definition bare_world : World :=
  mkWorld None false None false false None ∅ 0 0 [].

(** A server on a clone, with the timeout 0 pending, due after five
    minutes. *)
Definition scheduled_world : World :=
  mkWorld (Some docs_tree) true None true true (Some 0%nat) {[ 0%nat := 300000%Z ]} 1 0 [].

(** * Properties *)

(** ** Symbolic execution *)

Create HintDb program discriminated.

#[global] Hint Unfold
  ret bind throw process_exit never_settles try_catch try_finally get modify
  call console raise_if answer on_git
  fs_ensureDir fs_emptyDir fs_readdir fs_ensureParentDir fs_copy glob
  git_clone git_checkIsRepo git_fetch git_status git_pull axios_get tar_x
  setTimeout clearTimeout clear_updateTimer : program.

(** Splits on the innermost answer of the environment that the program
    waits for. *)
Ltac waiting_answer :=
  match goal with
  | |- context [match ?x with _ => _ end] =>
      lazymatch x with
      | context [match _ with _ => _ end] => fail
      | _ => destruct x eqn:?
      end
  end.

(** Runs a program as far as it is determined, and splits on every answer
    of the environment that it waits for. *)
Ltac run_program :=
  autounfold with program;
  repeat (cbn -[tar_extract glob_files top_level github_match Z.mul Z.add for_of
                timer_delay leave];
          try waiting_answer).

Lemma sourceKind_repository c :
  sourceKind c = repository <-> truthy (gitUrl c) = true.
Proof.
  unfold sourceKind.
  destruct (truthy (gitUrl c)), (truthy (includeDir c)); split; congruence.
Qed.

Lemma sourceKind_staticDir c :
  sourceKind c = staticDir <-> truthy (gitUrl c) = false /\ truthy (includeDir c) = true.
Proof.
  unfold sourceKind.
  destruct (truthy (gitUrl c)), (truthy (includeDir c)); intuition congruence.
Qed.

(** Closes [history w' = history w ++ evs ++ ?rest] once [w'] is known. *)
Ltac trace_eq :=
  unfold history;
  cbn [rev trace record app set_dataDirTree set_dataDirRepo set_configFile set_git
       set_updateTimer set_timers];
  rewrite <- ?app_assoc; cbn [app]; reflexivity.

Lemma nil_suffix {A} (l : list A) : l = [] ++ l.
Proof. reflexivity. Qed.

Lemma cons_suffix {A} (x : A) l evs s : l = evs ++ s -> x :: l = (x :: evs) ++ s.
Proof. intros ->. reflexivity. Qed.

(** Closes [trace w' = ?evs ++ trace w] once [w'] is known. *)
Ltac trace_suffix :=
  cbn [trace record set_dataDirTree set_dataDirRepo set_configFile set_git
       set_updateTimer set_timers];
  repeat first [ apply nil_suffix | apply cons_suffix ].

(** ** The archive strategy and its fallback (build.js) *)

Section ArchiveFallback.

Variable env : Env.
Variable config : Config.

(** A URL that the pattern does not match goes to the clone at once: no
    download is tried. *)
Lemma downloadAndExtractTarball_unparseable w url :
  gitUrl config = Some url ->
  github_match url = None ->
  downloadAndExtractTarball env config w =
  cloneGitRepo env config
    (snd (console env
            (Msg "Cannot determine tarball URL from gitUrl. Falling back to git clone.") w)).
Proof.
  intros Hu Hm. unfold downloadAndExtractTarball. rewrite Hu, Hm. reflexivity.
Qed.

(** A URL that the pattern matches is downloaded first, from the derived
    archive URL. *)
Lemma downloadAndExtractTarball_download_first w url owner repo :
  gitUrl config = Some url ->
  github_match url = Some (owner, repo) ->
  exists rest,
    history (snd (downloadAndExtractTarball env config w)) =
    history w ++ [Console (Msg "Attempting to download archive...");
                  HttpGet (tarballUrl config owner repo)] ++ rest.
Proof.
  intros Hu Hm. unfold downloadAndExtractTarball, cloneGitRepo, history.
  rewrite Hu, Hm.
  run_program; eexists; trace_eq.
Qed.

(** The strategy does not call [process.exit]: the process ends in it only
    when the download breaks off and the awaited promise is never settled,
    and then with code 0. *)
Lemma downloadAndExtractTarball_no_exit w c :
  fst (downloadAndExtractTarball env config w) = Exit c ->
  c = 0%Z /\ exists calls n, download_stall env calls = Some n.
Proof.
  unfold downloadAndExtractTarball, cloneGitRepo.
  run_program; intros; try discriminate; simplify_eq; split; eauto.
Qed.

(** When the strategy fails, a clone was tried, and the error is the one
    of that clone. *)
Lemma downloadAndExtractTarball_throws_after_clone w url e w' :
  gitUrl config = Some url ->
  downloadAndExtractTarball env config w = (Throw e, w') ->
  exists evs w1,
    trace w' = evs ++ trace w /\ existsb is_clone evs = true /\
    clone_answer env w1 = inl e.
Proof.
  intros Hu. unfold downloadAndExtractTarball, cloneGitRepo. rewrite Hu.
  run_program; intros; simplify_eq;
    (eexists; eexists; split; [ trace_suffix | split; [ reflexivity | eassumption ] ]).
Qed.

End ArchiveFallback.

(** ** Start-up of the server with a repository and no refresh interval *)

Section RuntimeArchive.

Variable env : Env.
Variable config : Config.

(** C1, as the code has it in runtime mode.  With [sourceKind = repository]
    and [refreshIntervalMinutes = 0], start-up calls a method that the class
    does not have; the [TypeError] is caught and the process exits with
    code 1.  No archive is downloaded, no clone is tried as a fallback, and
    the data directory is left as it was: the calls made are the eight
    console lines below, whatever the environment would have answered. *)
Theorem runtime_archive_exits_without_download w :
  sourceKind config = repository ->
  autoUpdateInterval config = 0%Z ->
  fst (run env config w) = Exit 1 /\
  history (snd (run env config w)) =
    history w ++
    [ Console (Msg "Starting Docs MCP server...");
      Console (Msg "Using data directory");
      Console (Msg "MCP Tool Name");
      Console (Msg "MCP Tool Description");
      Console (Msg "Using Git repository");
      Console (Msg "Auto-update interval");
      Console (Msg "Auto-update disabled. Initializing content from tarball...");
      Console (MsgErr "Failed to initialize from tarball:"
                 (TypeError "this.downloadAndExtractTarballRuntime is not a function")) ] /\
  dataDirTree (snd (run env config w)) = dataDirTree w.
Proof.
  intros Hk Hn. apply sourceKind_repository in Hk.
  unfold run, downloadAndExtractTarballRuntime. autounfold with program.
  cbn. rewrite Hk, Hn. cbn.
  split; [reflexivity | split; [trace_eq | reflexivity]].
Qed.

End RuntimeArchive.

Lemma runtime_archive_exits_without_download_witness :
  fst (run fair_env (docs_config acme_url None 0) (fresh_world (Some ∅) false None)) = Exit 1.
Proof.
  apply (runtime_archive_exits_without_download
           fair_env (docs_config acme_url None 0) (fresh_world (Some ∅) false None));
    reflexivity.
Defined.

(** ** Start-up of the server with a repository and a refresh interval *)

Section RuntimeMirror.

Variable env : Env.
Variable config : Config.

(** C2, as the code has it when the data directory is not yet a clone.
    With [sourceKind = repository] and [refreshIntervalMinutes > 0], start-up
    on a directory that is not a git repository makes the initial clone and
    goes on to connect the server: [checkForUpdates] is only called in the
    other branch.  Whatever the environment answers, the run makes no fetch,
    status or pull call and arms no timer, so no synchronize cycle runs and
    none is scheduled. *)
Theorem runtime_fresh_clone_is_never_scheduled w :
  sourceKind config = repository ->
  (0 < autoUpdateInterval config)%Z ->
  dataDirRepo w = false ->
  exists evs : list Event,
    trace (snd (run env config w)) = evs ++ trace w /\
    existsb is_sync evs = false /\
    timers (snd (run env config w)) = timers w /\
    updateTimer (snd (run env config w)) = updateTimer w.
Proof.
  intros Hk Hn Hrepo. apply sourceKind_repository in Hk.
  apply Z.ltb_lt in Hn.
  destruct w; cbn in Hrepo; subst.
  unfold run. autounfold with program. cbn. rewrite Hk, Hn.
  run_program;
    (eexists; split; [ trace_suffix | split; [ reflexivity | split; reflexivity ] ]).
Qed.

End RuntimeMirror.

Lemma runtime_fresh_clone_is_never_scheduled_witness :
  fst (run fair_env (docs_config acme_url None 5) (fresh_world (Some ∅) false None)) = Ret tt /\
  exists evs,
    trace (snd (run fair_env (docs_config acme_url None 5) (fresh_world (Some ∅) false None)))
    = evs ++ [] /\
    existsb is_sync evs = false /\
    timers (snd (run fair_env (docs_config acme_url None 5) (fresh_world (Some ∅) false None)))
    = ∅ /\
    updateTimer (snd (run fair_env (docs_config acme_url None 5) (fresh_world (Some ∅) false None)))
    = None.
Proof.
  split; [ reflexivity | ].
  apply (runtime_fresh_clone_is_never_scheduled
           fair_env (docs_config acme_url None 5) (fresh_world (Some ∅) false None));
    [ reflexivity | reflexivity | reflexivity ].
Defined.

(** ** The reset of the data directory *)

Lemma remove_dups_nil {A} `{EqDecision A} (l : list A) : remove_dups l = [] -> l = [].
Proof.
  destruct l as [|x l]; [reflexivity|]. intros H.
  assert (Hx : x ∈ remove_dups (x :: l)) by (apply elem_of_remove_dups; left).
  rewrite H in Hx. inversion Hx.
Qed.

(** A directory without a top-level entry has no file. *)
Lemma top_level_nil (t : Tree) : top_level t = [] -> t = ∅.
Proof.
  unfold top_level. intros H. apply remove_dups_nil in H.
  apply fmap_nil_inv in H. apply fmap_nil_inv in H.
  by apply map_to_list_empty_iff.
Qed.

Section Reset.

Variable env : Env.
Variable config : Config.

(** Build mode: once [ensureDir] and [emptyDir] have returned, the data
    directory exists and is empty, whatever it was. *)
Lemma build_reset w w' :
  (fs_ensureDir env ;; fs_emptyDir env) w = (Ret tt, w') ->
  dataDirTree w' = Some ∅ /\ dataDirRepo w' = false.
Proof.
  run_program; intros; simplify_eq; split; reflexivity.
Qed.

(** Build mode, repository configuration: the first write of the pass, the
    archive extraction or the clone of a configuration with a refresh
    interval, starts in the empty directory. *)
Lemma build_extract_starts_empty w :
  sourceKind config = repository ->
  exists evs,
    trace (snd (prepareDataDir env config w)) = evs ++ trace w /\
    (forall strip seen, In (TarExtract strip seen) evs -> seen = Some ∅) /\
    (forall url ref depth seen,
       (0 < autoUpdateInterval config)%Z ->
       In (GitClone url ref depth seen) evs -> seen = Some ∅).
Proof.
  intros Hk. apply sourceKind_repository in Hk.
  unfold prepareDataDir, downloadAndExtractTarball, cloneGitRepo.
  autounfold with program. cbn. rewrite Hk.
  run_program;
    (eexists; split; [ trace_suffix | ]);
    (split; cbn; intros; try (apply Z.ltb_lt in H); intuition congruence).
Qed.

(** Runtime mode: the initial clone starts in the empty directory.  The
    directory is listed first and emptied when the listing is not empty. *)
Lemma runtime_clone_starts_empty w :
  exists evs,
    trace (snd (run env config w)) = evs ++ trace w /\
    forall url ref depth seen,
      In (GitClone url ref depth seen) evs -> seen = Some ∅.
Proof.
  unfold run, checkForUpdates, checkForUpdates_try, downloadAndExtractTarballRuntime.
  run_program;
    (eexists; split; [ trace_suffix | ]);
    cbn; intros;
    repeat match goal with
           | H : length (top_level ?t ++ _) = 0%nat |- _ =>
               apply nil_length_inv, app_eq_nil in H; destruct H as [H _];
               apply top_level_nil in H; subst t
           end;
    intuition congruence.
Qed.

(** Runtime mode: [emptyDir] is only called on the way to the initial
    clone, that is for a repository configuration with a refresh interval
    whose directory is not a git repository. *)
Lemma runtime_reset_only_before_clone w :
  exists evs,
    trace (snd (run env config w)) = evs ++ trace w /\
    (In EmptyDir evs ->
     sourceKind config = repository /\ (0 < autoUpdateInterval config)%Z /\
     dataDirRepo w = false).
Proof.
  unfold run, checkForUpdates, checkForUpdates_try, downloadAndExtractTarballRuntime.
  run_program;
    (eexists; split; [ trace_suffix | ]);
    cbn; intros; repeat split;
    try (apply sourceKind_repository; assumption);
    try (apply Z.ltb_lt; assumption);
    try (destruct (dataDirRepo w); [ discriminate | reflexivity ]);
    intuition congruence.
Qed.

End Reset.

Section FallbackReset.

Variable env : Env.
Variable config : Config.

(** C3, as the code has it on the fallback path of build mode.  The reset
    of the data directory is made once, before the archive strategy.  When
    the archive is served but its extraction stops with an error after [n]
    entries, the clone strategy starts next, in the directory that holds what
    those entries wrote: the clone call sees [tar_extract 1 (take n entries) ∅]
    and no [emptyDir] is called between the extraction and the end of the
    pass. *)
Theorem build_fallback_clone_starts_on_extracted_files w url owner repo entries n e :
  sourceKind config = repository ->
  autoUpdateInterval config = 0%Z ->
  gitUrl config = Some url ->
  github_match url = Some (owner, repo) ->
  (forall calls, ensureDir_error env calls = None) ->
  (forall calls, emptyDir_error env calls = None) ->
  (forall calls, http_answer env calls = inr entries) ->
  (forall calls, tar_abort env calls = Some (n, e)) ->
  exists rest,
    history (snd (prepareDataDir env config w)) =
      history w ++
      [ Console (Msg "Building docs-mcp package...");
        EnsureDir;
        EmptyDir;
        Console (Msg "Auto-update disabled. Attempting to download tarball archive.");
        Console (Msg "Attempting to download archive...");
        HttpGet (tarballUrl config owner repo);
        TarExtract 1 (Some ∅);
        Console (MsgErr "Error downloading or extracting tarball:" e);
        Console (Msg "Falling back to git clone...");
        Console (Msg "Cloning Git repository...");
        GitClone (Some url) (gitRef config) 1 (Some (tar_extract 1 (take n entries) ∅)) ]
      ++ rest /\
    ~ In EmptyDir rest.
Proof.
  intros Hk Hn Hu Hm Hensure Hempty Hhttp Habort.
  apply sourceKind_repository in Hk.
  unfold prepareDataDir, downloadAndExtractTarball, cloneGitRepo.
  autounfold with program. cbn.
  rewrite Hk, Hn, Hu, Hm. cbn.
  rewrite Hensure, Hempty. cbn. rewrite Hhttp. cbn. rewrite Habort. cbn.
  run_program; (eexists; split; [ trace_eq | cbn; intuition congruence ]).
Qed.

End FallbackReset.

Lemma build_fallback_clone_starts_on_extracted_files_witness :
  (exists rest,
     history (snd (prepareDataDir truncated_env (docs_config acme_url None 0)
                     (fresh_world None false None))) =
       [] ++
       [ Console (Msg "Building docs-mcp package...");
         EnsureDir;
         EmptyDir;
         Console (Msg "Auto-update disabled. Attempting to download tarball archive.");
         Console (Msg "Attempting to download archive...");
         HttpGet "https://github.com/acme/docs/archive/main.tar.gz";
         TarExtract 1 (Some ∅);
         Console (MsgErr "Error downloading or extracting tarball:"
                    (Error "unexpected end of file"));
         Console (Msg "Falling back to git clone...");
         Console (Msg "Cloning Git repository...");
         GitClone acme_url (Some "main") 1
                  (Some (tar_extract 1 (take 1 docs_archive) ∅)) ]
       ++ rest /\
     ~ In EmptyDir rest) /\
  tar_extract 1 (take 1 docs_archive) ∅ = {[ ["README.md"] := readme ]} /\
  fst (build truncated_env (docs_config acme_url None 0) (fresh_world None false None))
  = Exit 1 /\
  dataDirTree (snd (build truncated_env (docs_config acme_url None 0)
                      (fresh_world None false None)))
  = Some {[ ["README.md"] := readme ]}.
Proof.
  split; [ | split; [ | split ] ].
  - apply (build_fallback_clone_starts_on_extracted_files
             truncated_env (docs_config acme_url None 0) (fresh_world None false None)
             "https://github.com/acme/docs" "acme" "docs" docs_archive 1%nat
             (Error "unexpected end of file"));
      reflexivity.
  - vm_compute. reflexivity.
  - vm_compute. reflexivity.
  - vm_compute. reflexivity.
Defined.

(** ** The synchronize cycle *)

(** A positive delay that the timer can hold is the delay of the timeout. *)
Lemma timer_delay_in_range (n : Z) :
  (0 < n)%Z -> (n * 60 * 1000 <= TIMEOUT_MAX)%Z -> timer_delay (n * 60 * 1000) = (n * 60 * 1000)%Z.
Proof.
  intros Hn Hmax. unfold timer_delay.
  rewrite (proj2 (Z.leb_le 1 (n * 60 * 1000))) by lia.
  rewrite (proj2 (Z.leb_le (n * 60 * 1000) TIMEOUT_MAX)) by exact Hmax.
  reflexivity.
Qed.

(** A delay beyond what the timer can hold is taken as one millisecond. *)
Lemma timer_delay_overflow (n : Z) :
  (TIMEOUT_MAX < n)%Z -> timer_delay n = 1%Z.
Proof.
  intros Hmax. unfold timer_delay.
  rewrite (proj2 (Z.leb_gt n TIMEOUT_MAX)) by exact Hmax.
  rewrite andb_false_r. reflexivity.
Qed.

Section Synchronize.

Variable env : Env.
Variable config : Config.

(** The [try] block never ends the process. *)
Lemma checkForUpdates_try_no_exit w c :
  fst (checkForUpdates_try env config w) <> Exit c.
Proof.
  unfold checkForUpdates_try. run_program; discriminate.
Qed.

(** The only pull of a cycle is [git.pull('origin', config.gitRef)], and it
    is made after a status that reports commits behind. *)
Lemma checkForUpdates_pull_only_when_behind w :
  exists evs,
    trace (snd (checkForUpdates env config w)) = evs ++ trace w /\
    forall remote ref,
      In (GitPull remote ref) evs ->
      remote = "origin" /\ ref = gitRef config /\
      exists calls st, status_answer env calls = inr st /\ (0 < behind st)%Z.
Proof.
  unfold checkForUpdates, checkForUpdates_try.
  run_program;
    (eexists; split; [ trace_suffix | ]);
    cbn; intros remote ref HIn;
    repeat (destruct HIn as [HIn | HIn]; try discriminate HIn);
    try contradiction;
    simplify_eq;
    (split; [ reflexivity | split; [ reflexivity | ] ]);
    do 2 eexists; (split; [ eassumption | apply Z.ltb_lt; assumption ]).
Qed.


(** C7.  With a repository and a positive refresh interval, a cycle always
    returns: it never throws and never ends the process.  An error thrown
    by its [try] block, whichever call raised it, is written to the console.
    The last thing the cycle does is to arm the next timeout and to keep it
    in [updateTimer]; the timeout is due one interval later, for an interval
    that the timer can hold (up to [TIMEOUT_MAX] ms, a little under 25
    days), and one millisecond later for a longer one. *)
Theorem sync_cycle_contains_errors_and_rearms w :
  sourceKind config = repository ->
  (0 < autoUpdateInterval config)%Z ->
  exists w' evs,
    checkForUpdates env config w = (Ret tt, w') /\
    trace w' =
      SetTimeout (nextTimer w) (autoUpdateInterval config * 60 * 1000) :: evs ++ trace w /\
    updateTimer w' = Some (nextTimer w) /\
    timers w' !! nextTimer w =
      Some (clock w' + timer_delay (autoUpdateInterval config * 60 * 1000))%Z /\
    ((autoUpdateInterval config * 60 * 1000 <= TIMEOUT_MAX)%Z ->
     timers w' !! nextTimer w = Some (clock w' + autoUpdateInterval config * 60 * 1000)%Z) /\
    (forall e w1,
       checkForUpdates_try env config
         (snd (console env (Msg "Checking for documentation updates...") w))
       = (Throw e, w1) ->
       In (Console (MsgErr "Error checking for updates:" e)) evs).
Proof.
  intros Hk Hn. pose proof (timer_delay_in_range _ Hn) as Hrange.
  apply sourceKind_repository in Hk. apply Z.ltb_lt in Hn.
  unfold checkForUpdates, checkForUpdates_try. rewrite Hk, Hn.
  run_program; try discriminate;
    (eexists; eexists;
     split; [ reflexivity | ];
     split; [ cbn [trace record set_updateTimer set_timers];
              apply (f_equal (cons _)); trace_suffix | ];
     split; [ reflexivity | ];
     split; [ cbn; apply lookup_insert_eq | ];
     split; [ intros Hmax; cbn -[timer_delay Z.mul Z.add];
              rewrite lookup_insert_eq, (Hrange Hmax); reflexivity | ];
     intros ? ? Hthrow; simplify_eq; cbn; tauto).
Qed.

End Synchronize.



Lemma sync_cycle_contains_errors_and_rearms_witness :
  exists w' evs,
    checkForUpdates offline_env (docs_config acme_url None 5) (serving_world (Some ∅) true)
    = (Ret tt, w') /\
    trace w' = SetTimeout 0 (5 * 60 * 1000) :: evs ++ [] /\
    updateTimer w' = Some 0%nat /\
    timers w' !! 0%nat = Some (clock w' + timer_delay (5 * 60 * 1000))%Z /\
    ((5 * 60 * 1000 <= TIMEOUT_MAX)%Z ->
     timers w' !! 0%nat = Some (clock w' + 5 * 60 * 1000)%Z) /\
    (forall e w1,
       checkForUpdates_try offline_env (docs_config acme_url None 5)
         (snd (console offline_env (Msg "Checking for documentation updates...")
                 (serving_world (Some ∅) true)))
       = (Throw e, w1) ->
       In (Console (MsgErr "Error checking for updates:" e)) evs).
Proof.
  apply (sync_cycle_contains_errors_and_rearms
           offline_env (docs_config acme_url None 5) (serving_world (Some ∅) true));
    reflexivity.
Defined.

(** ** The update scheduler *)

Section Scheduler.

Variable env : Env.
Variable config : Config.

Hypothesis Hrepository : sourceKind config = repository.
Hypothesis Hinterval : (0 < autoUpdateInterval config)%Z.

(** A cycle takes time and ends by arming the one timeout that replaces
    the one that fired, due after the end of the cycle by the delay that the
    timer makes of one interval. *)
Lemma fire_rearms (id : nat) (t : Z) (w : World) (due : Z) :
  timers w !! id = Some due ->
  (due <= t)%Z ->
  (clock w <= t)%Z ->
  exists w',
    fire env config id t w = Some (Ret tt, w') /\
    updateTimer w' = Some (nextTimer w) /\
    nextTimer w' = S (nextTimer w) /\
    timers w' =
      <[ nextTimer w := (clock w' + timer_delay (autoUpdateInterval config * 60 * 1000))%Z ]>
        (delete id (timers w)) /\
    (t <= clock w')%Z.
Proof.
  intros Hdue Hle Hclock.
  apply sourceKind_repository in Hrepository. apply Z.ltb_lt in Hinterval.
  unfold fire. rewrite Hdue.
  rewrite (proj2 (Z.leb_le due t) Hle), (proj2 (Z.leb_le (clock w) t) Hclock).
  cbn [andb].
  unfold checkForUpdates, checkForUpdates_try. rewrite Hrepository, Hinterval.
  run_program; try discriminate;
    (eexists; split; [ reflexivity | ];
     split; [ reflexivity | ];
     split; [ reflexivity | ];
     split; [ reflexivity | cbn; lia ]).
Qed.

(** The delay of a timeout is one millisecond at least. *)
Lemma timer_delay_positive (n : Z) : (1 <= timer_delay n)%Z.
Proof.
  unfold timer_delay. destruct (1 <=? n)%Z eqn:Hlow; cbn [andb]; [ | lia ].
  destruct (n <=? TIMEOUT_MAX)%Z; [ apply Z.leb_le; exact Hlow | lia ].
Qed.

(** Two cycles in a row, with one timeout pending before the first: the
    second is run by the timeout that the first armed, which is the only one
    pending meanwhile, so no other cycle can start in between.  The second
    cycle starts after the first has ended, later than the start of the
    first by the delay that the timer makes of one interval at least: by one
    interval when the interval is one that the timer can hold
    ([TIMEOUT_MAX] ms, a little under 25 days), and by as little as one
    millisecond when it is longer. *)
Lemma cycles_are_spaced (id id' : nat) (t t' due : Z) (w w' w'' : World) o o' :
  timers w = {[ id := due ]} ->
  fire env config id t w = Some (o, w') ->
  fire env config id' t' w' = Some (o', w'') ->
  id' = nextTimer w /\
  timers w' = {[ id' := (clock w' + timer_delay (autoUpdateInterval config * 60 * 1000))%Z ]} /\
  (t <= clock w' < t')%Z /\
  (t + timer_delay (autoUpdateInterval config * 60 * 1000) <= t')%Z /\
  ((autoUpdateInterval config * 60 * 1000 <= TIMEOUT_MAX)%Z ->
   (t + autoUpdateInterval config * 60 * 1000 <= t')%Z) /\
  ((TIMEOUT_MAX < autoUpdateInterval config * 60 * 1000)%Z ->
   timers w' = {[ id' := (clock w' + 1)%Z ]}).
Proof.
  intros Hone Hfire Hfire'.
  assert (Hid : timers w !! id = Some due) by (rewrite Hone; apply lookup_singleton_eq).
  pose proof Hfire as Hcond. unfold fire in Hcond. rewrite Hid in Hcond.
  destruct ((due <=? t)%Z && (clock w <=? t)%Z) eqn:Hguard; [ | discriminate ].
  apply andb_prop in Hguard. destruct Hguard as [Hle Hclock].
  apply Z.leb_le in Hle. apply Z.leb_le in Hclock. clear Hcond.
  destruct (fire_rearms id t w due Hid Hle Hclock) as (w1 & Hrun & _ & _ & Htimers & Hend).
  rewrite Hrun in Hfire. injection Hfire as <- <-.
  rewrite Hone, delete_singleton_eq, insert_empty in Htimers.
  pose proof (timer_delay_positive (autoUpdateInterval config * 60 * 1000)) as Hpos.
  unfold fire in Hfire'. rewrite Htimers in Hfire'.
  destruct (decide (nextTimer w = id')) as [<- | Hne].
  - rewrite lookup_singleton_eq in Hfire'.
    destruct ((_ <=? t')%Z && (clock w1 <=? t')%Z) eqn:Hguard; [ | discriminate ].
    apply andb_prop in Hguard. destruct Hguard as [Hle' _]. apply Z.leb_le in Hle'.
    split; [ reflexivity | ].
    split; [ exact Htimers | ].
    split; [ lia | ].
    split; [ lia | ].
    split.
    + intros Hmax. rewrite (timer_delay_in_range _ Hinterval Hmax) in Hle'. lia.
    + intros Hmax. rewrite Htimers, (timer_delay_overflow _ Hmax). reflexivity.
  - rewrite lookup_singleton_ne in Hfire' by exact Hne. discriminate.
Qed.

(** Start-up on a directory that is already a clone runs one cycle before
    the server is connected: one cycle start is on record, and one timeout
    is pending, kept in [updateTimer]. *)
Lemma run_on_clone_starts_scheduler (w : World) :
  dataDirRepo w = true ->
  (forall calls, checkIsRepo_error env calls = None) ->
  exists evs,
    trace (snd (run env config w)) = evs ++ trace w /\
    length (List.filter is_cycle_start evs) = 1%nat /\
    length (List.filter is_timeout evs) = 1%nat /\
    updateTimer (snd (run env config w)) = Some (nextTimer w) /\
    is_Some (timers (snd (run env config w)) !! nextTimer w).
Proof.
  intros Hclone Hcheck.
  apply sourceKind_repository in Hrepository. apply Z.ltb_lt in Hinterval.
  unfold run, checkForUpdates, checkForUpdates_try.
  rewrite Hrepository, Hinterval.
  autounfold with program.
  repeat (cbn -[tar_extract glob_files top_level github_match Z.mul Z.add for_of
                timer_delay leave];
          rewrite ?Hcheck, ?Hclone;
          cbn -[tar_extract glob_files top_level github_match Z.mul Z.add for_of timer_delay leave];
          try waiting_answer);
    try (exfalso; rewrite Hclone in *; discriminate);
    (eexists; split; [ trace_suffix | ];
     split; [ reflexivity | ];
     split; [ reflexivity | ];
     split; [ reflexivity | cbn; rewrite lookup_insert_eq; eauto ]).
Qed.

End Scheduler.

(** ** The static copy *)

Section StaticCopy.

Variable env : Env.
Variable config : Config.

Lemma glob_files_spec (src : Tree) (p : path) :
  In p (glob_files env (copy_options config) src) <-> is_Some (src !! p) /\ included env config src p = true.
Proof.
  unfold glob_files, included. rewrite filter_In. cbn.
  rewrite <- list_elem_of_In, list_elem_of_fmap.
  split.
  - intros [[[q b] [-> Hq]] Hin]. apply elem_of_map_to_list in Hq.
    split; [ eauto | exact Hin ].
  - intros [[b Hb] Hin]. split; [ | exact Hin ].
    exists (p, b). split; [ reflexivity | by apply elem_of_map_to_list ].
Qed.

(** The loop: when no call fails, every listed file is in the target with
    the bytes it has in the source, and the other paths are untouched. *)
Lemma for_of_copy_file (src : Tree) (files : list path) :
  (forall calls, ensureParent_error env calls = None) ->
  (forall calls, copy_error env calls = None) ->
  (forall f, f ∈ files -> is_Some (src !! f)) ->
  forall w (t : Tree),
    includeTree w = Some src ->
    dataDirTree w = Some t ->
    exists w' (t' : Tree),
      for_of files (copy_file env) w = (Ret tt, w') /\
      includeTree w' = Some src /\
      (exists evs, trace w' = evs ++ trace w) /\
      dataDirTree w' = Some t' /\
      forall p, t' !! p = if bool_decide (p ∈ files) then src !! p else t !! p.
Proof.
  intros Hparent Hcopy. induction files as [|f files IH]; intros Hfiles w t Hsrc Htree.
  - exists w, t.
    split; [ reflexivity | split; [ exact Hsrc | split; [ by exists [] | ] ] ].
    split; [ exact Htree | reflexivity ].
  - destruct (Hfiles f) as [bytes Hbytes]; [ left | ].
    cbn [for_of]. unfold copy_file at 1. autounfold with program. cbn.
    rewrite Hparent. cbn. rewrite Hcopy. cbn. rewrite Hsrc. cbn. rewrite Hbytes, Htree. cbn.
    match goal with
    | |- context [for_of files (copy_file env) ?w1] =>
        destruct (IH (fun g Hg => Hfiles g (list_elem_of_further _ _ _ Hg))
                     w1 (<[ f := bytes ]> t))
          as (w' & t' & Hrun & Hsrc' & [evs Hevs] & Htree' & Hlookup);
          [ exact Hsrc | reflexivity | ]
    end.
    exists w', t'. rewrite Hrun.
    split; [ reflexivity | split; [ exact Hsrc' | split ] ].
    { exists (evs ++ [Copy f; EnsureParentDir f]).
      rewrite Hevs, <- app_assoc. reflexivity. }
    split; [ exact Htree' | ].
    intros p. rewrite Hlookup.
    destruct (decide (f = p)) as [-> | Hne].
    + rewrite (bool_decide_eq_true_2 (p ∈ p :: files)) by left.
      case_bool_decide as Hp; [ reflexivity | ].
      rewrite Hbytes. apply lookup_insert_eq.
    + rewrite lookup_insert_ne by exact Hne.
      case_bool_decide as Hp.
      * rewrite bool_decide_eq_true_2 by (by right). reflexivity.
      * rewrite bool_decide_eq_false_2; [ reflexivity | ].
        intros Hq. inversion Hq; subst; [ exact (Hne eq_refl) | exact (Hp ltac:(assumption)) ].
Qed.

(** C4.  For a [staticDir] configuration whose source directory exists, and
    when no file-system call fails, the build pass returns and leaves in the
    data directory exactly the files of the source directory that no
    [ignorePatterns] glob matches and that the ignore files of the source do
    not exclude, each at the same relative path and with the same bytes.
    The enumeration asks for files only ([nodir]), dot files included. *)
Theorem static_copy_mirrors_included_files (w : World) (src : Tree) :
  sourceKind config = staticDir ->
  includeTree w = Some src ->
  (forall calls, ensureDir_error env calls = None) ->
  (forall calls, emptyDir_error env calls = None) ->
  (forall calls, ensureParent_error env calls = None) ->
  (forall calls, copy_error env calls = None) ->
  exists w' (t' : Tree),
    prepareDataDir env config w = (Ret tt, w') /\
    In (Glob {| cwd := includeDir config; nodir := true; ignore := ignorePatterns config;
                dot := true; gitignore := true |}) (trace w') /\
    dataDirTree w' = Some t' /\
    forall p, t' !! p = if included env config src p then src !! p else None.
Proof.
  intros Hk Hsrc Hensure Hempty Hparent Hcopy.
  apply sourceKind_staticDir in Hk. destruct Hk as [Hgit Hinclude].
  destruct w as [tree isRepo inc cfgFile g timer pending next now calls0].
  cbn in Hsrc. subst inc.
  unfold prepareDataDir, copyIncludedDir. autounfold with program. cbn -[for_of glob_files].
  rewrite Hensure. cbn -[for_of glob_files]. rewrite Hempty. cbn -[for_of glob_files].
  rewrite Hgit, Hinclude. cbn -[for_of glob_files].
  fold (copy_options config).
  match goal with
  | |- context [for_of (glob_files env (copy_options config) src) (copy_file env) ?w1] =>
      destruct (for_of_copy_file src (glob_files env (copy_options config) src) Hparent Hcopy
                  (fun f Hf => proj1 (proj1 (glob_files_spec src f)
                                               (proj1 (list_elem_of_In _ _) Hf))) w1 ∅)
        as (w' & t' & Hrun & Hsrc' & [evs Hevs] & Htree' & Hlookup);
        [ reflexivity | reflexivity | ]
  end.
  rewrite Hrun. cbn -[for_of glob_files].
  eexists. exists t'. split; [ reflexivity | ].
  split; [ | split; [ exact Htree' | ] ].
  - cbn [trace record]. rewrite Hevs. cbn [trace record set_dataDirTree set_dataDirRepo].
    do 2 right. apply in_or_app. right. right. left. reflexivity.
  - intros p. rewrite Hlookup, lookup_empty.
    case_bool_decide as Hp.
    + apply list_elem_of_In, glob_files_spec in Hp. destruct Hp as [_ ->]. reflexivity.
    + destruct (included env config src p) eqn:Hinc; [ | reflexivity ].
      destruct (src !! p) eqn:Hp'; [ | reflexivity ].
      exfalso. apply Hp. apply list_elem_of_In, glob_files_spec.
      split; [ eauto | exact Hinc ].
Qed.

(** C8, amended.  For a [staticDir] configuration the copy step makes no
    test of the source directory: what it does with one that is missing or
    cannot be read is what it does with the answer of the enumeration.  When
    the enumeration throws, the copy step logs the error and throws it
    again, and the build ends the process with exit code 1, whatever else
    the environment answers.  When the enumeration answers with the empty
    list, the copy step logs that it found 0 files and returns without
    writing, and a build in which no file-system call fails returns with the
    data directory empty.  When the source directory exists and the
    enumeration is empty, the copy step returns without an error and without
    writing to the data directory. *)
Theorem static_copy_fails_only_when_the_enumeration_throws (w : World) :
  sourceKind config = staticDir ->
  (includeTree w = None ->
   (forall e,
      glob_missing env = inl e ->
      (exists w',
         copyIncludedDir env config w = (Throw e, w') /\
         head (trace w') = Some (Console (MsgErr "Error copying includeDir:" e))) /\
      fst (build env config w) = Exit 1) /\
   (glob_missing env = inr [] ->
    (exists w',
       copyIncludedDir env config w = (Ret tt, w') /\
       In (Console (MsgFound 0)) (trace w') /\
       dataDirTree w' = dataDirTree w) /\
    ((forall calls, writeFile_error env calls = None) ->
     (forall calls, ensureDir_error env calls = None) ->
     (forall calls, emptyDir_error env calls = None) ->
     (forall calls, chmod_error env calls = None) ->
     exists w',
       build env config w = (Ret tt, w') /\
       In (Console (MsgFound 0)) (trace w') /\
       dataDirTree w' = Some ∅))) /\
  (forall src : Tree,
     includeTree w = Some src ->
     glob_files env (copy_options config) src = [] ->
     exists w',
       copyIncludedDir env config w = (Ret tt, w') /\
       dataDirTree w' = dataDirTree w).
Proof.
  intros Hk. apply sourceKind_staticDir in Hk. destruct Hk as [Hgit Hinclude].
  destruct w as [tree isRepo inc cfgFile g timer pending next now calls0].
  split.
  - cbn [includeTree]. intros ->. split.
    + intros e Hmissing. split.
      * unfold copyIncludedDir. autounfold with program. cbn. rewrite Hmissing. cbn.
        eexists. split; reflexivity.
      * unfold build, createDefaultConfig, prepareDataDir, copyIncludedDir.
        autounfold with program. cbn -[for_of glob_files].
        rewrite Hgit, Hinclude, Hmissing.
        run_program; reflexivity.
    + intros Hnone. split.
      * unfold copyIncludedDir. autounfold with program. cbn. rewrite Hnone. cbn.
        eexists. split; [ reflexivity | split; [ | reflexivity ] ].
        cbn. tauto.
      * intros Hwrite Hensure Hempty Hchmod.
        unfold build, createDefaultConfig, prepareDataDir, copyIncludedDir.
        autounfold with program. cbn.
        rewrite Hgit, Hinclude, Hnone.
        destruct cfgFile;
          repeat (cbn; rewrite ?Hwrite, ?Hensure, ?Hempty, ?Hchmod);
          (eexists; split; [ reflexivity | split; [ cbn; tauto | reflexivity ] ]).
  - cbn [includeTree]. intros src -> Hnone.
    unfold copyIncludedDir. autounfold with program. cbn -[for_of glob_files].
    fold (copy_options config). rewrite Hnone. cbn.
    eexists. split; reflexivity.
Qed.

End StaticCopy.

Lemma static_copy_mirrors_included_files_witness :
  exists w' (t' : Tree),
    prepareDataDir fair_env (docs_config None (Some "/srv/docs") 0)
                   (fresh_world None false (Some site_tree)) = (Ret tt, w') /\
    In (Glob {| cwd := Some "/srv/docs"; nodir := true;
                ignore := ["node_modules"; ".git"; "dist"; "build"; "coverage"];
                dot := true; gitignore := true |}) (trace w') /\
    dataDirTree w' = Some t' /\
    forall p,
      t' !! p =
      if included fair_env (docs_config None (Some "/srv/docs") 0) site_tree p
      then site_tree !! p else None.
Proof.
  apply (static_copy_mirrors_included_files
           fair_env (docs_config None (Some "/srv/docs") 0)
           (fresh_world None false (Some site_tree)) site_tree);
    intros; reflexivity.
Defined.

(** A build whose source directory does not exist: the claim C8 as it is
    stated, that the static copy then fails and the build ends with a
    non-zero exit code, fails there.  The enumeration finds 0 files, nothing
    is copied, and the build returns with the data directory empty. *)
Lemma static_copy_of_missing_source_completes :
  fst (build fair_env (docs_config None (Some "/srv/docs") 0) (fresh_world None false None))
  = Ret tt /\
  history (snd (build fair_env (docs_config None (Some "/srv/docs") 0)
                  (fresh_world None false None))) =
    [ ExistsConfig;
      Console (Msg "Building docs-mcp package...");
      EnsureDir;
      EmptyDir;
      Console (Msg "Copying includeDir to dataDir...");
      Glob {| cwd := Some "/srv/docs"; nodir := true;
              ignore := ["node_modules"; ".git"; "dist"; "build"; "coverage"];
              dot := true; gitignore := true |};
      Console (MsgFound 0);
      Console (MsgCopied 0);
      Console (Msg "Build completed successfully!");
      Chmod;
      Console (Msg "Made bin script executable") ] /\
  dataDirTree (snd (build fair_env (docs_config None (Some "/srv/docs") 0)
                      (fresh_world None false None))) = Some ∅.
Proof.
  split; [ vm_compute; reflexivity | split; vm_compute; reflexivity ].
Qed.

Lemma static_copy_fails_only_when_the_enumeration_throws_witness :
  exists w',
    copyIncludedDir fair_env (docs_config None (Some "/srv/docs") 0)
                    (fresh_world (Some ∅) false None) = (Ret tt, w') /\
    In (Console (MsgFound 0)) (trace w') /\
    dataDirTree w' = dataDirTree (fresh_world (Some ∅) false None).
Proof.
  pose proof (static_copy_fails_only_when_the_enumeration_throws
                fair_env (docs_config None (Some "/srv/docs") 0)
                (fresh_world (Some ∅) false None) eq_refl) as [Hmissing _].
  destruct (Hmissing eq_refl) as [_ Hempty].
  destruct (Hempty eq_refl) as [Hstep _].
  exact Hstep.
Defined.

(** ** The archive fetch: URL derivation and extraction *)

Lemma github_match_https rest :
  github_match ("https://" +:+ rest) = github_match rest.
Proof. reflexivity. Qed.

Lemma append_cons c s t : String c s +:+ t = String c (s +:+ t).
Proof. reflexivity. Qed.

Lemma append_empty_r s : s +:+ EmptyString = s.
Proof. induction s as [|c s IH]; [ reflexivity | rewrite append_cons, IH; reflexivity ]. Qed.

Lemma length_append s t :
  String.length (s +:+ t) = (String.length s + String.length t)%nat.
Proof.
  induction s as [|c s IH]; [ reflexivity | ].
  rewrite append_cons. cbn [String.length]. rewrite IH. reflexivity.
Qed.

Lemma strip_prefix_app p s : strip_prefix p (p +:+ s) = Some s.
Proof.
  induction p as [|c p IH]; [ reflexivity | ].
  rewrite append_cons. cbn [strip_prefix]. rewrite Ascii.eqb_refl. exact IH.
Qed.

Lemma span_segment_slash owner rest :
  no_slash owner = true ->
  span_segment (owner +:+ "/" +:+ rest) = (owner, "/" +:+ rest).
Proof.
  induction owner as [|c owner IH]; [ reflexivity | ].
  rewrite append_cons. cbn [no_slash span_segment].
  intros H. apply andb_prop in H. destruct H as [Hc Hrest].
  apply negb_true_iff in Hc. rewrite Hc, (IH Hrest). reflexivity.
Qed.

Lemma lazy_segment_cons c rest :
  lazy_segment (String c rest) =
  if is_slash c then None
  else if ((rest =? ".git") || (rest =? EmptyString))%string then Some (String c EmptyString)
       else option_map (String c) (lazy_segment rest).
Proof. reflexivity. Qed.

Lemma lazy_segment_git repo :
  segment repo = true ->
  lazy_segment (repo +:+ ".git") = Some repo.
Proof.
  unfold segment. destruct repo as [|c repo]; [ discriminate | ]. cbn [negb String.eqb andb].
  revert c. induction repo as [|d repo IH]; intros c H.
  - cbn [no_slash] in H. rewrite andb_true_r in H. apply negb_true_iff in H.
    rewrite append_cons, lazy_segment_cons, H. reflexivity.
  - cbn [no_slash] in H. apply andb_prop in H. destruct H as [Hc Hrest].
    apply negb_true_iff in Hc. 
    rewrite append_cons, lazy_segment_cons, Hc.
    replace ((String d repo +:+ ".git" =? ".git")%string) with false.
    2:{ symmetry. apply String.eqb_neq. intros Heq.
        apply (f_equal String.length) in Heq. rewrite length_append in Heq.
        cbn in Heq. lia. }
    replace ((String d repo +:+ ".git" =? EmptyString)%string) with false by reflexivity.
    cbn [orb].
    rewrite (IH d Hrest). reflexivity.
Qed.

Lemma lazy_segment_plain repo :
  segment repo = true ->
  has_git_suffix repo = false ->
  lazy_segment repo = Some repo.
Proof.
  unfold segment. destruct repo as [|c repo]; [ discriminate | ]. cbn [negb String.eqb andb].
  revert c. induction repo as [|d repo IH]; intros c H Hgit.
  - cbn [no_slash] in H. rewrite andb_true_r in H. apply negb_true_iff in H.
    rewrite lazy_segment_cons, H. reflexivity.
  - cbn [no_slash] in H. apply andb_prop in H. destruct H as [Hc Hrest].
    apply negb_true_iff in Hc.
    cbn [has_git_suffix ends_with] in Hgit. apply orb_false_elim in Hgit.
    destruct Hgit as [Hne Hgit].
    rewrite lazy_segment_cons, Hc, Hne.
    replace ((String d repo =? EmptyString)%string) with false by reflexivity.
    cbn [orb]. rewrite (IH d Hrest Hgit). reflexivity.
Qed.

Lemma github_match_shape owner repo (with_git : bool) :
  segment owner = true ->
  segment repo = true ->
  (with_git = false -> has_git_suffix repo = false) ->
  github_match ("https://github.com/" +:+ owner +:+ "/" +:+ repo
                +:+ (if with_git then ".git" else EmptyString)) = Some (owner, repo).
Proof.
  intros Howner Hrepo Hsuffix.
  change ("https://github.com/" +:+ owner +:+ "/" +:+ repo +:+ (if with_git then ".git" else EmptyString))
    with ("https://" +:+ ("github.com/" +:+ (owner +:+ "/" +:+ repo +:+ (if with_git then ".git" else EmptyString)))).
  rewrite github_match_https.
  assert (Hhere : match_here ("github.com/" +:+ (owner +:+ "/" +:+ repo +:+ (if with_git then ".git" else EmptyString)))
                  = Some (owner, repo)).
  { unfold match_here. rewrite strip_prefix_app.
    unfold segment in Howner. apply andb_prop in Howner. destruct Howner as [Hne Hslash].
    rewrite (span_segment_slash owner _ Hslash).
    destruct owner as [|c owner]; [ discriminate | ].
    rewrite append_cons.
    change (EmptyString +:+ repo +:+ (if with_git then ".git" else EmptyString))
      with (repo +:+ (if with_git then ".git" else EmptyString)).
    change (is_slash "/") with true. cbv iota.
    destruct with_git.
    - rewrite (lazy_segment_git repo Hrepo). reflexivity.
    - rewrite append_empty_r.
      rewrite (lazy_segment_plain repo Hrepo (Hsuffix eq_refl)). reflexivity. }
  change ("github.com/" +:+ (owner +:+ "/" +:+ repo +:+ (if with_git then ".git" else EmptyString)))
    with (String "g" ("ithub.com/" +:+ (owner +:+ "/" +:+ repo +:+ (if with_git then ".git" else EmptyString))))
    in *.
  cbn [github_match]. rewrite Hhere. reflexivity.
Qed.


Lemma tar_extract_snoc (strip : nat) (entries : list TarEntry) (e : TarEntry) (t : Tree) :
  tar_extract strip (entries ++ [e]) t = tar_write strip (tar_extract strip entries t) e.
Proof. unfold tar_extract. rewrite foldl_app. reflexivity. Qed.

(** A plain path has no [..] component and loses nothing when it is
    resolved. *)
Lemma plain_cons c p :
  plain (c :: p) = true ->
  is_dot c = false /\ (c =? "..")%string = false /\ plain p = true.
Proof.
  unfold plain. cbn [forallb]. intros H.
  apply andb_prop in H. destruct H as [Hc Hp].
  apply andb_prop in Hc. destruct Hc as [Hdot Hdots].
  apply negb_true_iff in Hdot. apply negb_true_iff in Hdots. auto.
Qed.

Lemma plain_no_dotdot p : plain p = true -> existsb (String.eqb "..") p = false.
Proof.
  induction p as [|c p IH]; [ reflexivity | ].
  intros H. apply plain_cons in H. destruct H as (_ & Hdots & Hp).
  cbn [existsb]. rewrite (IH Hp), String.eqb_sym, Hdots. reflexivity.
Qed.

Lemma plain_resolved p : plain p = true -> List.filter (fun c => negb (is_dot c)) p = p.
Proof.
  induction p as [|c p IH]; [ reflexivity | ].
  intros H. apply plain_cons in H. destruct H as (Hdot & _ & Hp).
  cbn [List.filter]. rewrite Hdot, (IH Hp). reflexivity.
Qed.

Lemma tar_target_plain (wrapper : string) (p : path) :
  plain p = true ->
  tar_target 1 (wrapper :: p) = match p with [] => None | _ => Some p end.
Proof.
  intros Hp. unfold tar_target. change (drop 1 (wrapper :: p)) with p. cbv zeta.
  rewrite (plain_no_dotdot p Hp), (plain_resolved p Hp). destruct p; reflexivity.
Qed.

(** What [separate] says. *)
Lemma separate_spec (entries : list TarEntry) :
  separate entries = true ->
  NoDup entries.*1 /\
  forall p q : path, p ∈ entries.*1 -> q ∈ entries.*1 -> p `prefix_of` q -> p = q.
Proof.
  unfold separate. intros H. apply andb_prop in H. destruct H as [Hdup Hfree].
  split; [ exact (bool_decide_eq_true_1 _ Hdup) | ].
  intros p q Hp Hq. rewrite forallb_forall in Hfree.
  specialize (Hfree p (proj1 (list_elem_of_In _ _) Hp)).
  rewrite forallb_forall in Hfree.
  exact (bool_decide_eq_true_1 _ (Hfree q (proj1 (list_elem_of_In _ _) Hq))).
Qed.

(** No file is in the way of [p] when every file is at [p] or apart from
    it. *)
Lemma in_the_way_apart (t : Tree) (p : path) :
  (forall q bytes, t !! q = Some bytes -> q `prefix_of` p \/ p `prefix_of` q -> q = p) ->
  in_the_way t p = false.
Proof.
  intros Hapart. apply not_true_iff_false. intros Hway.
  unfold in_the_way in Hway. apply existsb_exists in Hway.
  destruct Hway as (q & Hq & Hdec). apply bool_decide_eq_true_1 in Hdec.
  destruct Hdec as [Hne Hprefix].
  apply list_elem_of_In, list_elem_of_fmap in Hq. destruct Hq as ([q' bytes] & -> & Hq).
  apply elem_of_map_to_list in Hq. cbn in *.
  exact (Hne (Hapart q' bytes Hq Hprefix)).
Qed.

(** An archive of plain, separate entries below [wrapper], extracted with
    [strip: 1] into an empty directory: every entry is written, at its path
    without the wrapper. *)
Lemma tar_extract_strip_one (wrapper : string) (entries : list TarEntry) :
  (forall e, e ∈ entries -> exists p, e.1 = wrapper :: p /\ plain p = true) ->
  NoDup entries.*1 ->
  (forall p q : path, p ∈ entries.*1 -> q ∈ entries.*1 -> p `prefix_of` q -> p = q) ->
  forall (p : path) bytes,
    tar_extract 1 entries ∅ !! p = Some bytes <->
    p <> [] /\ (wrapper :: p, bytes) ∈ entries.
Proof.
  induction entries as [|e entries IH] using rev_ind; intros Hwrap Hdup Hfree p bytes.
  - cbn. rewrite lookup_empty. split; [ discriminate | ].
    intros [_ H]. inversion H.
  - rewrite tar_extract_snoc.
    pose proof Hdup as Hdup0.
    rewrite fmap_app in Hdup. apply NoDup_app in Hdup. destruct Hdup as (Hdup & Hfresh & _).
    assert (IH' := IH (fun e' He' => Hwrap e' (proj2 (elem_of_app _ _ _) (or_introl He')))
                      Hdup
                      (fun p' q' Hp' Hq' =>
                         Hfree p' q'
                           ltac:(rewrite fmap_app; apply elem_of_app; left; exact Hp')
                           ltac:(rewrite fmap_app; apply elem_of_app; left; exact Hq'))).
    destruct (Hwrap e) as (q & Hq & Hplain); [ apply elem_of_app; right; left | ].
    destruct e as [ep eb]. cbn in Hq. subst ep.
    unfold tar_write. cbn [fst snd]. rewrite (tar_target_plain wrapper q Hplain).
    destruct q as [|q0 q].
    + rewrite IH'. rewrite elem_of_app, list_elem_of_singleton.
      split; [ intros [Hp Hin]; eauto | ].
      intros [Hp [Hin | Heq]]; [ eauto | ]. inversion Heq; subst. contradiction.
    + rewrite in_the_way_apart.
      2:{ intros k kb Hk Hprefix. apply IH' in Hk. destruct Hk as [_ Hk].
          assert (Hin : (wrapper :: k : path) ∈ (entries ++ [(wrapper :: q0 :: q, eb)]).*1).
          { rewrite fmap_app. apply elem_of_app. left.
            apply list_elem_of_fmap. exists (wrapper :: k, kb). split; [ reflexivity | exact Hk ]. }
          assert (Hnew : (wrapper :: q0 :: q : path) ∈ (entries ++ [(wrapper :: q0 :: q, eb)]).*1).
          { rewrite fmap_app. apply elem_of_app. right. cbn. left. }
          destruct Hprefix as [Hprefix | Hprefix].
          - assert (Heq := Hfree _ _ Hin Hnew (prefix_cons wrapper _ _ Hprefix)).
            congruence.
          - assert (Heq := Hfree _ _ Hnew Hin (prefix_cons wrapper _ _ Hprefix)).
            congruence. }
      destruct (decide (q0 :: q = p)) as [<- | Hne].
      * rewrite lookup_insert_eq. rewrite elem_of_app, list_elem_of_singleton.
        split.
        -- intros [= ->]. split; [ discriminate | right; reflexivity ].
        -- intros [_ [Hin | Heq]]; [ | congruence ].
           exfalso. apply (Hfresh (wrapper :: q0 :: q)).
           ++ apply list_elem_of_fmap. exists (wrapper :: q0 :: q, bytes). split; [ reflexivity | exact Hin ].
           ++ cbn. left.
      * rewrite lookup_insert_ne by exact Hne. rewrite IH'.
        rewrite elem_of_app, list_elem_of_singleton.
        split; [ intros [Hp Hin]; eauto | ].
        intros [Hp [Hin | Heq]]; [ eauto | ]. inversion Heq; subst. contradiction.
Qed.

(** Whatever the archive holds, the extraction writes no file at a path
    with a [..] component, and none at the target directory itself. *)
Lemma tar_write_stays_inside (strip : nat) (t : Tree) (e : TarEntry) (p : path) :
  tar_write strip t e !! p <> t !! p ->
  p <> [] /\ existsb (String.eqb "..") p = false.
Proof.
  unfold tar_write, tar_target.
  destruct (existsb (String.eqb "..") (drop strip e.1)) eqn:Hdots; [ congruence | ].
  destruct (List.filter (fun c => negb (is_dot c)) (drop strip e.1)) as [|c q] eqn:Hq;
    [ congruence | ].
  destruct (in_the_way t (c :: q)); [ congruence | ].
  destruct (decide (c :: q = p)) as [<- | Hne];
    [ | rewrite lookup_insert_ne by exact Hne; congruence ].
  intros _. split; [ discriminate | ].
  rewrite <- Hq. apply not_true_iff_false. intros Hin.
  apply existsb_exists in Hin. destruct Hin as (x & Hx & Heq).
  apply filter_In in Hx. destruct Hx as [Hx _].
  assert (Hdots' : existsb (String.eqb "..") (drop strip e.1) = true)
    by (apply existsb_exists; eauto).
  congruence.
Qed.

Section ArchiveFetch.

Variable env : Env.
Variable config : Config.

(** [config.gitRef || 'main'] is the configured ref, and [main] without
    one. *)
Lemma ref_or_main_default :
  truthy (gitRef config) = false -> ref_or_main config = "main".
Proof. unfold ref_or_main. intros ->. reflexivity. Qed.

Lemma ref_or_main_configured ref :
  gitRef config = Some ref -> ref <> EmptyString -> ref_or_main config = ref.
Proof.
  unfold ref_or_main. intros -> Hne. cbn.
  destruct (String.eqb_spec ref EmptyString); [ contradiction | reflexivity ].
Qed.

(** C5.  For a repository URL [https://github.com/<owner>/<repo>] or
    [https://github.com/<owner>/<repo>.git] (owner and repo non-empty and
    without a slash; without the suffix, a repo name that does not itself
    end in [.git]), the archive fetch requests exactly
    [https://github.com/<owner>/<repo>/archive/<ref>.tar.gz], where [ref] is
    the configured ref when there is one, and [main] when there is none or
    an empty one.  When the archive is served and extracted (its entries
    the files of one tree below the directory [wrapper], with plain paths),
    every entry [<wrapper>/<p>] of the archive is in the data directory at
    [<p>], with its bytes, and nothing else is: the one leading component
    is gone. *)
Theorem archive_fetch_derives_url_and_strips_wrapper
    (w : World) (owner repo ref : string) (with_git : bool)
    (entries : list TarEntry) (wrapper : string) :
  segment owner = true ->
  segment repo = true ->
  (with_git = false -> has_git_suffix repo = false) ->
  gitUrl config =
    Some ("https://github.com/" +:+ owner +:+ "/" +:+ repo
          +:+ (if with_git then ".git" else EmptyString)) ->
  (gitRef config = Some ref /\ ref <> EmptyString \/
   truthy (gitRef config) = false /\ ref = "main"%string) ->
  dataDirTree w = Some ∅ ->
  (forall calls, http_answer env calls = inr entries) ->
  (forall calls, tar_abort env calls = None) ->
  (forall calls, download_stall env calls = None) ->
  forallb (wrapped wrapper) entries = true ->
  forallb (fun e : TarEntry => plain e.1) entries = true ->
  separate entries = true ->
  exists w' (t' : Tree),
    downloadAndExtractTarball env config w = (Ret tt, w') /\
    history w' =
      history w ++
      [ Console (Msg "Attempting to download archive...");
        HttpGet ("https://github.com/" +:+ owner +:+ "/" +:+ repo +:+ "/archive/"
                 +:+ ref +:+ ".tar.gz");
        TarExtract 1 (Some ∅);
        Console (Msg "Successfully downloaded and extracted archive") ] /\
    dataDirTree w' = Some t' /\
    forall (p : path) bytes,
      t' !! p = Some bytes <-> p <> [] /\ (wrapper :: p, bytes) ∈ entries.
Proof.
  intros Howner Hrepo Hsuffix Hurl Href Hempty Hhttp Habort Hstall Hwrapped Hplain Hseparate.
  assert (Hmain : ref_or_main config = ref).
  { destruct Href as [[Hsome Hne] | [Hnone ->]];
      [ exact (ref_or_main_configured ref Hsome Hne) | exact (ref_or_main_default Hnone) ]. }
  destruct (separate_spec entries Hseparate) as [Hdup Hfree].
  destruct w as [tree isRepo inc cfgFile g timer pending next now calls0].
  cbn in Hempty. subst tree.
  unfold downloadAndExtractTarball. rewrite Hurl.
  rewrite (github_match_shape owner repo with_git Howner Hrepo Hsuffix).
  autounfold with program. cbn -[tar_extract]. rewrite Hhttp. cbn -[tar_extract].
  rewrite Habort. cbn -[tar_extract]. rewrite Hstall. cbn -[tar_extract].
  eexists. exists (tar_extract 1 entries ∅).
  split; [ reflexivity | ].
  split; [ unfold tarballUrl; rewrite Hmain; trace_eq | ].
  split; [ reflexivity | ].
  apply tar_extract_strip_one; [ | exact Hdup | exact Hfree ].
  intros [ep eb] He.
  rewrite forallb_forall in Hwrapped. rewrite forallb_forall in Hplain.
  specialize (Hwrapped (ep, eb) (proj1 (list_elem_of_In _ _) He)).
  specialize (Hplain (ep, eb) (proj1 (list_elem_of_In _ _) He)).
  unfold wrapped in Hwrapped. cbn in *.
  destruct ep as [|top p]; [ discriminate | ].
  apply String.eqb_eq in Hwrapped. subst top.
  exists p. split; [ reflexivity | exact (proj2 (proj2 (plain_cons _ _ Hplain))) ].
Qed.

End ArchiveFetch.

(** The sample repository at the ref [v2.1], and without a configured ref:
    the archive of the ref, and the archive of [main]. *)
Lemma archive_fetch_derives_url_and_strips_wrapper_witness :
  (exists w' (t' : Tree),
     downloadAndExtractTarball fair_env (docs_config_at (Some "v2.1"))
       (fresh_world (Some ∅) false None) = (Ret tt, w') /\
     history w' =
       [] ++
       [ Console (Msg "Attempting to download archive...");
         HttpGet ("https://github.com/" +:+ "acme" +:+ "/" +:+ "docs" +:+ "/archive/"
                  +:+ "v2.1" +:+ ".tar.gz");
         TarExtract 1 (Some ∅);
         Console (Msg "Successfully downloaded and extracted archive") ] /\
     dataDirTree w' = Some t' /\
     forall (p : path) bytes,
       t' !! p = Some bytes <-> p <> [] /\ ("docs-main" :: p, bytes) ∈ docs_archive) /\
  (exists w' (t' : Tree),
     downloadAndExtractTarball fair_env (docs_config_at None)
       (fresh_world (Some ∅) false None) = (Ret tt, w') /\
     history w' =
       [] ++
       [ Console (Msg "Attempting to download archive...");
         HttpGet ("https://github.com/" +:+ "acme" +:+ "/" +:+ "docs" +:+ "/archive/"
                  +:+ "main" +:+ ".tar.gz");
         TarExtract 1 (Some ∅);
         Console (Msg "Successfully downloaded and extracted archive") ] /\
     dataDirTree w' = Some t' /\
     forall (p : path) bytes,
       t' !! p = Some bytes <-> p <> [] /\ ("docs-main" :: p, bytes) ∈ docs_archive).
Proof.
  split.
  - apply (archive_fetch_derives_url_and_strips_wrapper
             fair_env (docs_config_at (Some "v2.1")) (fresh_world (Some ∅) false None)
             "acme" "docs" "v2.1" false docs_archive "docs-main");
      try reflexivity.
    left. split; [ reflexivity | discriminate ].
  - apply (archive_fetch_derives_url_and_strips_wrapper
             fair_env (docs_config_at None) (fresh_world (Some ∅) false None)
             "acme" "docs" "main" false docs_archive "docs-main");
      try reflexivity.
    right. split; reflexivity.
Defined.

(** ** The tool-call handler *)

Lemma assoc_without_page k fields :
  k <> "page"%string -> assoc k (without_page fields) = assoc k fields.
Proof.
  intros Hk. induction fields as [|[k' v] fields IH]; [ reflexivity | ].
  cbn [without_page List.filter fst negb]. fold (without_page fields).
  destruct (String.eqb_spec k' "page") as [-> | Hne]; cbn [negb assoc].
  - destruct (String.eqb_spec "page" k) as [<- | _]; [ contradiction | exact IH ].
  - rewrite IH. reflexivity.
Qed.

Section ToolCall.

Variable env : Env.
Variable config : Config.

Lemma reaches_search_inv request :
  reaches_search config request = true ->
  (req_name request =? toolName config)%string = true /\
  js_truthy (req_arguments request) = true /\
  typeof_object (req_arguments request) = true /\
  js_truthy (get_prop (req_arguments request) "query") = true.
Proof.
  unfold reaches_search. intros H.
  repeat (apply andb_prop in H; destruct H as [H ?]). auto.
Qed.

(** C9.  The handler of a tool call never ends the process, and for a
    request that names the tool it never throws: it returns a result.  When
    the request gets as far as the search and the search collaborator fails
    with [e], the error is caught in [executeDocsSearch], wrapped, caught
    again in the handler and returned as a result with [isError] set, whose
    text carries the message; the data directory is not touched. *)
Theorem tool_call_contains_search_failure (request : Request) (w : World) :
  (forall c, fst (callTool env config request w) <> Exit c) /\
  (req_name request = toolName config ->
   exists res w', callTool env config request w = (Ret res, w')) /\
  (forall e,
     reaches_search config request = true ->
     search_answer env (calls_at_search config request w) (dataDirTree w) = inl e ->
     exists w',
       callTool env config request w =
         (Ret {| text := "Error executing " +:+ req_name request +:+ ": "
                         +:+ mcp_message env MethodNotFound
                               ("Error executing docs search: "
                                +:+ message_or_string env e);
                 isError := true |}, w') /\
       dataDirTree w' = dataDirTree w).
Proof.
  split; [ | split ].
  - intros c. unfold callTool, executeDocsSearch. run_program; discriminate.
  - intros Hname. unfold callTool, executeDocsSearch.
    apply String.eqb_eq in Hname. rewrite Hname.
    run_program; eexists; eexists; reflexivity.
  - intros e Hreach Hfail. apply reaches_search_inv in Hreach.
    destruct Hreach as (Hname & Hargs & Hobj & Hquery).
    unfold calls_at_search, search_options in Hfail.
    unfold callTool, executeDocsSearch. autounfold with program.
    rewrite Hname, Hargs, Hobj. cbn. rewrite Hquery. cbn. rewrite Hfail. cbn.
    eexists. split; reflexivity.
Qed.

(** C10.  A tool call that returns a result without [isError] has made
    exactly one call to the search collaborator, with the options
    [{ path: dataDir, query: arguments.query, maxTokens: 10000 }], and its
    text is what that call answered.  Two requests for the same tool whose
    argument objects agree on every field but [page] get the same outcome and
    make the same search calls, the collaborator answering a search call by
    its options and the directory: [page] is never read. *)
Theorem tool_call_ignores_page (w : World) :
  (forall request res w',
     callTool env config request w = (Ret res, w') ->
     isError res = false ->
     history w' =
       history w ++
       [ Console (Msg "Received request for tool");
         Console (MsgArgs (req_arguments request));
         Console (MsgOptions {| so_path := dataDir config;
                                so_query := get_prop (req_arguments request) "query";
                                so_maxTokens := 10000 |});
         Search {| so_path := dataDir config;
                   so_query := get_prop (req_arguments request) "query";
                   so_maxTokens := 10000 |} ] /\
     search_answer env (calls_at_search config request w) (dataDirTree w) = inr (text res)) /\
  (forall r1 r2 f1 f2,
     req_name r1 = req_name r2 ->
     req_arguments r1 = JObj f1 ->
     req_arguments r2 = JObj f2 ->
     without_page f1 = without_page f2 ->
     (forall calls1 calls2 o tree,
        search_answer env (Search o :: calls1) tree
        = search_answer env (Search o :: calls2) tree) ->
     fst (callTool env config r1 w) = fst (callTool env config r2 w) /\
     searches (trace (snd (callTool env config r1 w)))
     = searches (trace (snd (callTool env config r2 w)))).
Proof.
  split.
  - intros request res w'. unfold callTool, executeDocsSearch, calls_at_search, search_options.
    run_program; intros Hrun Hok; simplify_eq; try discriminate.
    split; [ trace_eq | reflexivity ].
  - intros [n1 a1] [n2 a2] f1 f2 Hname Ha1 Ha2 Hpage Hind. cbn in Hname, Ha1, Ha2. subst.
    assert (Hq : assoc "query" f1 = assoc "query" f2).
    { rewrite <- (assoc_without_page "query" f1), <- (assoc_without_page "query" f2)
        by discriminate.
      rewrite Hpage. reflexivity. }
    unfold callTool, executeDocsSearch. autounfold with program.
    cbn. rewrite Hq.
    destruct (negb (n2 =? toolName config)%string); [ split; reflexivity | ].
    cbn. destruct (negb (js_truthy (assoc "query" f2))); [ split; reflexivity | ].
    cbn.
    rewrite (Hind (Console _ :: Console (MsgArgs (JObj f1)) :: _) []).
    rewrite (Hind (Console _ :: Console (MsgArgs (JObj f2)) :: _) []).
    run_program; split; reflexivity.
Qed.

End ToolCall.

Lemma tool_call_contains_search_failure_witness :
  exists w',
    callTool offline_env (docs_config acme_url None 0)
      (install_request [("query", JStr "install")]) (serving_world (Some docs_tree) false)
    = (Ret {| text := "Error executing search_docs: MCP error -32601: Error executing docs search: search failed";
              isError := true |}, w') /\
    dataDirTree w' = Some docs_tree.
Proof.
  apply (proj2 (proj2 (tool_call_contains_search_failure
                         offline_env (docs_config acme_url None 0)
                         (install_request [("query", JStr "install")])
                         (serving_world (Some docs_tree) false)))
               (Error "search failed"));
    reflexivity.
Defined.

Lemma tool_call_ignores_page_witness :
  fst (callTool fair_env (docs_config acme_url None 0)
         (install_request [("query", JStr "install")])
         (serving_world (Some docs_tree) false))
  = fst (callTool fair_env (docs_config acme_url None 0)
           (install_request [("query", JStr "install"); ("page", JNum 2)])
           (serving_world (Some docs_tree) false)) /\
  searches (trace (snd (callTool fair_env (docs_config acme_url None 0)
                          (install_request [("query", JStr "install")])
                          (serving_world (Some docs_tree) false))))
  = searches (trace (snd (callTool fair_env (docs_config acme_url None 0)
                            (install_request [("query", JStr "install"); ("page", JNum 2)])
                            (serving_world (Some docs_tree) false)))).
Proof.
  apply (proj2 (tool_call_ignores_page fair_env (docs_config acme_url None 0)
                  (serving_world (Some docs_tree) false))
               (install_request [("query", JStr "install")])
               (install_request [("query", JStr "install"); ("page", JNum 2)])
               [("query", JStr "install")]
               [("query", JStr "install"); ("page", JNum 2)]);
    reflexivity.
Defined.

(** * Further properties of the two programs *)

(** ** Rules for what a program keeps *)

Section Keeps.

Variable R : World -> World -> Prop.
Hypothesis R_pre : PreOrder R.

Lemma keeps_ret {A} (a : A) : keeps R (ret a).
Proof. intros w. reflexivity. Qed.

Lemma keeps_throw {A} e : keeps R (@throw A e).
Proof. intros w. reflexivity. Qed.

Lemma keeps_process_exit {A} c : keeps R (@process_exit A c).
Proof. intros w. reflexivity. Qed.

Lemma keeps_never_settles {A} : keeps R (@never_settles A).
Proof. intros w. reflexivity. Qed.

Lemma keeps_get : keeps R get.
Proof. intros w. reflexivity. Qed.

Lemma keeps_raise_if oracle : keeps R (raise_if oracle).
Proof. intros w. unfold raise_if. destruct (oracle (trace w)); reflexivity. Qed.

Lemma keeps_answer {A} (oracle : list Event -> Err + A) : keeps R (answer oracle).
Proof. intros w. unfold answer. destruct (oracle (trace w)); reflexivity. Qed.

Lemma keeps_bind {A B} (m : M A) (k : A -> M B) :
  keeps R m -> (forall a, keeps R (k a)) -> keeps R (bind m k).
Proof.
  intros Hm Hk w. unfold bind. specialize (Hm w).
  destruct (m w) as [[a|e|c] w']; cbn in *; [ | exact Hm | exact Hm ].
  etransitivity; [ exact Hm | apply Hk ].
Qed.

Lemma keeps_try_catch {A} (m : M A) (h : Err -> M A) :
  keeps R m -> (forall e, keeps R (h e)) -> keeps R (try_catch m h).
Proof.
  intros Hm Hh w. unfold try_catch. specialize (Hm w).
  destruct (m w) as [[a|e|c] w']; cbn in *; [ exact Hm | | exact Hm ].
  etransitivity; [ exact Hm | apply Hh ].
Qed.

Lemma keeps_try_finally {A} (m : M A) (f : M unit) :
  keeps R m -> keeps R f -> keeps R (try_finally m f).
Proof.
  intros Hm Hf w. unfold try_finally. specialize (Hm w).
  destruct (m w) as [[a|e|c] w']; cbn in *.
  - specialize (Hf w'). destruct (f w') as [[[]|e'|c'] w'']; cbn in *;
      (etransitivity; [ exact Hm | exact Hf ]).
  - specialize (Hf w'). destruct (f w') as [[[]|e'|c'] w'']; cbn in *;
      (etransitivity; [ exact Hm | exact Hf ]).
  - exact Hm.
Qed.

Lemma keeps_for_of {A} (xs : list A) (body : A -> M unit) :
  (forall x, keeps R (body x)) -> keeps R (for_of xs body).
Proof.
  intros Hbody. induction xs as [|x xs IH]; cbn [for_of].
  - apply keeps_ret.
  - apply keeps_bind; [ apply Hbody | intros _; exact IH ].
Qed.

Lemma keeps_modify (f : World -> World) : (forall w, R w (f w)) -> keeps R (modify f).
Proof. intros Hf w. apply Hf. Qed.

Lemma keeps_call env ev : (forall w dt, R w (record ev dt w)) -> keeps R (call env ev).
Proof. intros Hev w. apply Hev. Qed.

End Keeps.

Lemma emits_preorder P : PreOrder (emits P).
Proof.
  split.
  - intros w. exists []. split; [ reflexivity | constructor ].
  - intros w1 w2 w3 (evs1 & H1 & P1) (evs2 & H2 & P2).
    exists (evs2 ++ evs1). rewrite H2, H1, app_assoc.
    split; [ reflexivity | apply Forall_app; auto ].
Qed.

Lemma emits_record (P : Event -> Prop) ev dt w : P ev -> emits P w (record ev dt w).
Proof. intros H. exists [ev]. split; [ reflexivity | repeat constructor; exact H ]. Qed.

Lemma emits_quiet (P : Event -> Prop) w w' : trace w' = trace w -> emits P w w'.
Proof. intros H. exists []. split; [ exact H | constructor ]. Qed.

Lemma untouched_preorder : PreOrder untouched.
Proof.
  split.
  - intros w. repeat split.
  - intros w1 w2 w3 H12 H23. unfold untouched in *.
    destruct H12 as (? & ? & ? & ? & ? & ? & ? & ?), H23 as (? & ? & ? & ? & ? & ? & ? & ?).
    repeat split; congruence.
Qed.

Lemma keeps_directory_preorder : PreOrder keeps_directory.
Proof.
  split.
  - intros w H. exact H.
  - intros w1 w2 w3 H12 H23 H. auto.
Qed.

(** ** Rules for how a program ends *)

Section Ends.

Variable C : Z -> Prop.

Lemma exits_in_ret {A} (a : A) : exits_in C (ret a).
Proof. intros w c. discriminate. Qed.

Lemma exits_in_throw {A} e : exits_in C (@throw A e).
Proof. intros w c. discriminate. Qed.

Lemma exits_in_process_exit {A} c : C c -> exits_in C (@process_exit A c).
Proof. intros Hc w c' [= <-]. exact Hc. Qed.

Lemma exits_in_never_settles {A} : C 0%Z -> exits_in C (@never_settles A).
Proof. intros Hc w c' [= <-]. exact Hc. Qed.

Lemma exits_in_get : exits_in C get.
Proof. intros w c. discriminate. Qed.

Lemma exits_in_modify f : exits_in C (modify f).
Proof. intros w c. discriminate. Qed.

Lemma exits_in_call env ev : exits_in C (call env ev).
Proof. intros w c. discriminate. Qed.

Lemma exits_in_raise_if oracle : exits_in C (raise_if oracle).
Proof. intros w c. unfold raise_if. destruct (oracle (trace w)); discriminate. Qed.

Lemma exits_in_answer {A} (oracle : list Event -> Err + A) : exits_in C (answer oracle).
Proof. intros w c. unfold answer. destruct (oracle (trace w)); discriminate. Qed.

Lemma exits_in_bind {A B} (m : M A) (k : A -> M B) :
  exits_in C m -> (forall a, exits_in C (k a)) -> exits_in C (bind m k).
Proof.
  intros Hm Hk w c. unfold bind. specialize (Hm w).
  destruct (m w) as [[a|e|c'] w']; cbn in *; [ apply Hk | discriminate | ].
  intros [= <-]. apply Hm. reflexivity.
Qed.

Lemma exits_in_try_catch {A} (m : M A) (h : Err -> M A) :
  exits_in C m -> (forall e, exits_in C (h e)) -> exits_in C (try_catch m h).
Proof.
  intros Hm Hh w c. unfold try_catch. specialize (Hm w).
  destruct (m w) as [[a|e|c'] w']; cbn in *; [ discriminate | apply Hh | apply Hm ].
Qed.

Lemma exits_in_try_finally {A} (m : M A) (f : M unit) :
  exits_in C m -> exits_in C f -> exits_in C (try_finally m f).
Proof.
  intros Hm Hf w c. unfold try_finally. specialize (Hm w).
  destruct (m w) as [[a|e|c'] w']; cbn in *; [ | | apply Hm ];
    (specialize (Hf w'); destruct (f w') as [[[]|e'|c''] w'']; cbn in *;
     first [ discriminate | intros [= <-]; apply Hf; reflexivity ]).
Qed.

Lemma exits_in_for_of {A} (xs : list A) (body : A -> M unit) :
  (forall x, exits_in C (body x)) -> exits_in C (for_of xs body).
Proof.
  intros Hbody. induction xs as [|x xs IH]; cbn [for_of].
  - apply exits_in_ret.
  - apply exits_in_bind; [ apply Hbody | intros _; exact IH ].
Qed.

End Ends.

(** A handler that never throws makes the whole [try] statement never
    throw, whatever its block does. *)
Lemma never_throws_try_catch {A} (m : M A) (h : Err -> M A) :
  (forall e, never_throws (h e)) -> never_throws (try_catch m h).
Proof.
  intros Hh w e. unfold try_catch.
  destruct (m w) as [[a|e'|c'] w']; cbn; [ discriminate | apply Hh | discriminate ].
Qed.

Lemma never_throws_bind {A B} (m : M A) (k : A -> M B) :
  never_throws m -> (forall a, never_throws (k a)) -> never_throws (bind m k).
Proof.
  intros Hm Hk w e. unfold bind. specialize (Hm w).
  destruct (m w) as [[a|e'|c'] w']; cbn in *; [ apply Hk | | discriminate ].
  exfalso. exact (Hm e' eq_refl).
Qed.

Lemma never_throws_call env ev : never_throws (call env ev).
Proof. intros w e. discriminate. Qed.

Lemma never_throws_process_exit {A} c : never_throws (@process_exit A c).
Proof. intros w e. discriminate. Qed.

(** A handler that logs the error and ends the process. *)
Lemma never_throws_log_and_exit env m c :
  never_throws (console env m ;; @process_exit unit c).
Proof.
  apply never_throws_bind; [ apply never_throws_call | intros _; apply never_throws_process_exit ].
Qed.

(** ** Walking through a program *)

Ltac head_of t := lazymatch t with ?f _ => head_of f | _ => t end.

(** One step through the structure of a program, for [keeps]: a known
    condition is rewritten, an unknown one split on. *)
Ltac keeps_step :=
  lazymatch goal with
  | |- keeps _ (bind _ _) => apply keeps_bind; [ assumption | | intros ? ]
  | |- keeps _ (try_catch _ _) => apply keeps_try_catch; [ assumption | | intros ? ]
  | |- keeps _ (try_finally _ _) => apply keeps_try_finally; [ assumption | | ]
  | |- keeps _ (ret _) => apply keeps_ret; assumption
  | |- keeps _ (throw _) => apply keeps_throw; assumption
  | |- keeps _ (process_exit _) => apply keeps_process_exit; assumption
  | |- keeps _ never_settles => apply keeps_never_settles; assumption
  | |- keeps _ get => apply keeps_get; assumption
  | |- keeps _ (for_of _ _) => apply keeps_for_of; [ assumption | intros ? ]
  | |- keeps _ (raise_if _) => apply keeps_raise_if; assumption
  | |- keeps _ (answer _) => apply keeps_answer; assumption
  | |- keeps _ (modify _) => apply keeps_modify; intros ?
  | |- keeps _ (call _ _) => apply keeps_call; intros ? ?
  | |- keeps _ (if ?b then _ else _) =>
      match goal with
      | H : b = _ |- _ => rewrite H
      | _ => destruct b eqn:?
      end
  | |- keeps _ (match ?x with _ => _ end) => destruct x eqn:?
  | |- keeps _ (let _ := _ in _) => cbv zeta
  | |- keeps _ ?m => let h := head_of m in unfold h
  end.

(** One step through the structure of a program, for [exits_in]: a known
    condition is rewritten, an unknown one split on. *)
Ltac exits_step :=
  lazymatch goal with
  | |- exits_in _ (bind _ _) => apply exits_in_bind; [ | intros ? ]
  | |- exits_in _ (try_catch _ _) => apply exits_in_try_catch; [ | intros ? ]
  | |- exits_in _ (try_finally _ _) => apply exits_in_try_finally
  | |- exits_in _ (ret _) => apply exits_in_ret
  | |- exits_in _ (throw _) => apply exits_in_throw
  | |- exits_in _ (process_exit _) => apply exits_in_process_exit
  | |- exits_in _ never_settles => apply exits_in_never_settles
  | |- exits_in _ get => apply exits_in_get
  | |- exits_in _ (for_of _ _) => apply exits_in_for_of; intros ?
  | |- exits_in _ (raise_if _) => apply exits_in_raise_if
  | |- exits_in _ (answer _) => apply exits_in_answer
  | |- exits_in _ (modify _) => apply exits_in_modify
  | |- exits_in _ (call _ _) => apply exits_in_call
  | |- exits_in _ (if ?b then _ else _) =>
      match goal with
      | H : b = _ |- _ => rewrite H
      | _ => destruct b
      end
  | |- exits_in _ (match ?x with _ => _ end) => destruct x
  | |- exits_in _ (let _ := _ in _) => cbv zeta
  | |- exits_in _ ?m => let h := head_of m in unfold h
  end.

(** [keeps (emits P) m]: every call that [m] makes satisfies [P]. *)
Ltac emits_auto :=
  match goal with
  | |- keeps (emits ?P) _ => pose proof (emits_preorder P)
  end;
  repeat keeps_step;
  try first [ apply emits_record; cbn; auto | apply emits_quiet; reflexivity ].

Lemma sourceKind_none c :
  sourceKind c = none <-> truthy (gitUrl c) = false /\ truthy (includeDir c) = false.
Proof.
  unfold sourceKind.
  destruct (truthy (gitUrl c)), (truthy (includeDir c)); intuition congruence.
Qed.

Lemma sourceKind_not_repository c :
  sourceKind c <> repository <-> truthy (gitUrl c) = false.
Proof.
  rewrite sourceKind_repository. destruct (truthy (gitUrl c)); intuition congruence.
Qed.

(** ** The build script *)

Section BuildScript.

Variable env : Env.
Variable config : Config.

(** Unless the build takes the archive of a repository, the steps inside
    its [try] block never end the process. *)
Lemma build_steps_never_exit :
  truthy (gitUrl config) = false \/ (0 <? autoUpdateInterval config)%Z = true ->
  exits_in (fun _ => False)
    (createDefaultConfig env ;;
     prepareDataDir env config ;;
     call env Chmod ;;
     raise_if (chmod_error env) ;;
     console env (Msg "Made bin script executable")).
Proof. intros [Hk | Hn]; repeat exits_step. Qed.

(** [build] never throws.  It returns, or it ends the process with exit code
    1, and then the last thing it did was to write the error that one of
    its steps threw to the console, after "Build failed:".  One more end is
    possible when it takes the archive of a repository: the download breaks
    off, the promise that [build] awaits is never settled, and the process
    ends with code 0 in the middle of the extraction, which is the last call
    on record; neither "Build completed successfully!" nor "Build failed:"
    is written. *)
Theorem build_returns_or_ends_the_process (w : World) :
  fst (build env config w) = Ret tt \/
  (fst (build env config w) = Exit 1 /\
   exists e, head (trace (snd (build env config w))) = Some (Console (MsgErr "Build failed:" e))) \/
  (fst (build env config w) = Exit 0 /\
   sourceKind config = repository /\
   (autoUpdateInterval config <= 0)%Z /\
   exists seen n,
     head (trace (snd (build env config w))) = Some (TarExtract 1 seen) /\
     download_stall env (trace (snd (build env config w))) = Some n).
Proof.
  destruct (truthy (gitUrl config)) eqn:Hk;
    [ destruct (0 <? autoUpdateInterval config)%Z eqn:Hn | ].
  2:{ pose proof (proj1 (Z.ltb_ge _ _) Hn) as Hle.
      apply sourceKind_repository in Hk. pose proof Hk as Hk'.
      apply sourceKind_repository in Hk'.
      unfold build, createDefaultConfig, prepareDataDir, downloadAndExtractTarball,
        cloneGitRepo.
      rewrite Hk', Hn.
      run_program;
        first [ left; reflexivity
              | right; left; split; [ reflexivity | eexists; reflexivity ]
              | right; right;
                split; [ reflexivity | ];
                split; [ exact Hk | ];
                split; [ exact Hle | ];
                do 2 eexists; split; [ reflexivity | eassumption ] ]. }
  all: match goal with
       | |- _ => pose proof (build_steps_never_exit (or_intror Hn) w) as Hexit
       | |- _ => pose proof (build_steps_never_exit (or_introl Hk) w) as Hexit
       end.
  all: unfold build, try_catch.
  all: destruct ((createDefaultConfig env ;; prepareDataDir env config ;; call env Chmod ;;
                  raise_if (chmod_error env) ;; console env (Msg "Made bin script executable")) w)
         as [[[]|e|c] w1]; cbn [fst snd] in *.
  all: first [ left; reflexivity
             | right; left; split; [ reflexivity | ]; exists e; reflexivity
             | exfalso; exact (Hexit c eq_refl) ].
Qed.

(** [createDefaultConfig] does not overwrite: with the configuration file in
    place it only tests for it.  Once it has returned, the file exists, and
    running it again only tests for the file. *)
Theorem createDefaultConfig_keeps_an_existing_file (w : World) :
  (configFile w = true ->
   createDefaultConfig env w = (Ret tt, record ExistsConfig (elapsed env ExistsConfig) w)) /\
  (forall w',
     createDefaultConfig env w = (Ret tt, w') ->
     configFile w' = true /\
     createDefaultConfig env w' = (Ret tt, record ExistsConfig (elapsed env ExistsConfig) w')).
Proof.
  split.
  - intros H. unfold createDefaultConfig. autounfold with program. cbn. rewrite H. reflexivity.
  - intros w'. unfold createDefaultConfig. autounfold with program. cbn.
    destruct (configFile w) eqn:Hc; cbn.
    + intros [= <-]. cbn. rewrite Hc. split; reflexivity.
    + destruct (writeFile_error env _); cbn; [ discriminate | ].
      intros [= <-]. split; reflexivity.
Qed.

(** The configuration file comes first: when it is missing and cannot be
    written, the build ends with exit code 1 after three calls, and the data
    directory has not been touched. *)
Theorem build_fails_before_the_data_directory_without_config (w : World) (e : Err) :
  configFile w = false ->
  writeFile_error env (WriteConfig :: ExistsConfig :: trace w) = Some e ->
  fst (build env config w) = Exit 1 /\
  history (snd (build env config w)) =
    history w ++ [ ExistsConfig; WriteConfig; Console (MsgErr "Build failed:" e) ] /\
  dataDirTree (snd (build env config w)) = dataDirTree w.
Proof.
  intros Hc Hw. unfold build, createDefaultConfig. autounfold with program. cbn.
  rewrite Hc. cbn. rewrite Hw. cbn.
  split; [ reflexivity | split; [ trace_eq | reflexivity ] ].
Qed.

(** With neither [gitUrl] nor [includeDir], the pass still empties the data
    directory: whatever it held is gone, and nothing is fetched or copied. *)
Theorem build_without_source_empties_the_directory (w : World) :
  sourceKind config = none ->
  (forall calls, ensureDir_error env calls = None) ->
  (forall calls, emptyDir_error env calls = None) ->
  exists w',
    prepareDataDir env config w = (Ret tt, w') /\
    dataDirTree w' = Some ∅ /\
    history w' =
      history w ++
      [ Console (Msg "Building docs-mcp package...");
        EnsureDir;
        EmptyDir;
        Console (Msg "No includeDir or gitUrl specified. Created empty data directory.");
        Console (Msg "Build completed successfully!") ].
Proof.
  intros Hk Hensure Hempty. apply sourceKind_none in Hk. destruct Hk as [Hgit Hinc].
  unfold prepareDataDir. autounfold with program. cbn.
  rewrite Hensure. cbn. rewrite Hempty. cbn. rewrite Hgit, Hinc. cbn.
  eexists. split; [ reflexivity | split; [ reflexivity | trace_eq ] ].
Qed.

(** With a repository and a refresh interval, the pass makes no HTTP
    request: it clones, once, into the emptied directory, which then holds
    exactly the work tree of the clone and is a git repository. *)
Theorem build_with_interval_clones_the_repository (w : World) (t : Tree) :
  sourceKind config = repository ->
  (0 < autoUpdateInterval config)%Z ->
  (forall calls, ensureDir_error env calls = None) ->
  (forall calls, emptyDir_error env calls = None) ->
  (forall calls, clone_answer env calls = inr t) ->
  exists w',
    prepareDataDir env config w = (Ret tt, w') /\
    dataDirTree w' = Some t /\
    dataDirRepo w' = true /\
    history w' =
      history w ++
      [ Console (Msg "Building docs-mcp package...");
        EnsureDir;
        EmptyDir;
        Console (Msg "Auto-update enabled. Using git clone.");
        Console (Msg "Cloning Git repository...");
        GitClone (gitUrl config) (gitRef config) 1 (Some ∅);
        Console (Msg "Successfully cloned repository");
        Console (Msg "Build completed successfully!") ].
Proof.
  intros Hk Hn Hensure Hempty Hclone.
  apply sourceKind_repository in Hk. apply Z.ltb_lt in Hn.
  unfold prepareDataDir, cloneGitRepo. autounfold with program. cbn.
  rewrite Hensure. cbn. rewrite Hempty. cbn. rewrite Hk, Hn. cbn. rewrite Hclone. cbn.
  eexists. split; [ reflexivity | split; [ | split; [ reflexivity | trace_eq ] ] ].
  cbn. rewrite (right_id_L ∅ (∪)). reflexivity.
Qed.

(** [gitUrl] wins over [includeDir]: with a repository configured the build
    never enumerates or copies the include directory, and without one it
    makes no call to git and no download. *)
Theorem build_uses_one_source (w : World) :
  exists evs,
    trace (snd (build env config w)) = evs ++ trace w /\
    (sourceKind config = repository -> Forall (fun ev => is_static_copy ev = false) evs) /\
    (sourceKind config <> repository -> Forall (fun ev => is_remote ev = false) evs).
Proof.
  destruct (truthy (gitUrl config)) eqn:Hgit.
  - assert (H : keeps (emits (fun ev => is_static_copy ev = false)) (build env config))
      by emits_auto.
    destruct (H w) as (evs & Hevs & Hall). exists evs.
    split; [ exact Hevs | split; [ intros _; exact Hall | ] ].
    intros Hk. apply sourceKind_not_repository in Hk. congruence.
  - assert (H : keeps (emits (fun ev => is_remote ev = false)) (build env config))
      by emits_auto.
    destruct (H w) as (evs & Hevs & Hall). exists evs.
    split; [ exact Hevs | split; [ | intros _; exact Hall ] ].
    intros Hk. apply sourceKind_repository in Hk. congruence.
Qed.

(** A download that fails is not the end of the pass: the error is logged,
    the clone is made in the directory as the download left it, and when the
    clone works the step returns normally, with the work tree of the clone
    in the data directory. *)
Theorem archive_failure_falls_back_to_clone
    (w : World) (url owner repo : string) (e : Err) (t : Tree) :
  gitUrl config = Some url ->
  github_match url = Some (owner, repo) ->
  dataDirTree w = Some ∅ ->
  (forall calls, http_answer env calls = inl e) ->
  (forall calls, clone_answer env calls = inr t) ->
  exists w',
    downloadAndExtractTarball env config w = (Ret tt, w') /\
    dataDirTree w' = Some t /\
    dataDirRepo w' = true /\
    history w' =
      history w ++
      [ Console (Msg "Attempting to download archive...");
        HttpGet (tarballUrl config owner repo);
        Console (MsgErr "Error downloading or extracting tarball:" e);
        Console (Msg "Falling back to git clone...");
        Console (Msg "Cloning Git repository...");
        GitClone (Some url) (gitRef config) 1 (Some ∅);
        Console (Msg "Successfully cloned repository") ].
Proof.
  intros Hu Hm Ht Hhttp Hclone.
  destruct w as [tree isRepo inc cfgFile g timer pending next now calls0].
  cbn in Ht. subst tree.
  unfold downloadAndExtractTarball, cloneGitRepo. rewrite Hu, Hm.
  autounfold with program. cbn. rewrite Hhttp. cbn. rewrite Hclone. cbn.
  eexists. split; [ reflexivity | split; [ | split; [ reflexivity | trace_eq ] ] ].
  cbn. rewrite (right_id_L ∅ (∪)). reflexivity.
Qed.

(** A URL that the pattern does not match is cloned: the step makes one
    clone call and no download, whatever the environment answers. *)
Theorem unmatched_url_is_cloned_without_download (w : World) (url : string) :
  gitUrl config = Some url ->
  github_match url = None ->
  exists evs,
    trace (snd (downloadAndExtractTarball env config w)) = evs ++ trace w /\
    Forall (fun ev => is_archive_or_copy ev = false) evs /\
    length (List.filter is_clone evs) = 1%nat.
Proof.
  intros Hu Hm. unfold downloadAndExtractTarball, cloneGitRepo. rewrite Hu, Hm.
  run_program; (eexists; split; [ trace_suffix | split; [ repeat constructor | reflexivity ] ]).
Qed.

(** Every clone that the build makes, and every clone that the server
    makes at start-up, is shallow (depth 1), of [config.gitUrl] at
    [config.gitRef]. *)
Theorem every_clone_is_shallow_and_as_configured (w : World) :
  (exists evs,
     trace (snd (build env config w)) = evs ++ trace w /\
     Forall (configured_clone config) evs) /\
  (exists evs,
     trace (snd (main env config w)) = evs ++ trace w /\
     Forall (configured_clone config) evs).
Proof.
  split; revert w.
  - change (keeps (emits (configured_clone config)) (build env config)). emits_auto.
  - change (keeps (emits (configured_clone config)) (main env config)). emits_auto.
Qed.

(** The two programs share the data directory and nothing else: the build
    never checks, fetches or pulls, arms no timeout, and neither connects
    nor searches; the server never downloads or extracts an archive, never
    enumerates or copies the include directory, and touches neither the
    configuration file nor the bin script. *)
Theorem build_and_server_make_different_calls (w : World) :
  (exists evs,
     trace (snd (build env config w)) = evs ++ trace w /\
     Forall (fun ev => is_runtime_only ev = false) evs) /\
  (exists evs,
     trace (snd (main env config w)) = evs ++ trace w /\
     Forall (fun ev => is_build_only ev = false) evs).
Proof.
  split; revert w.
  - change (keeps (emits (fun ev => is_runtime_only ev = false)) (build env config)).
    emits_auto.
  - change (keeps (emits (fun ev => is_build_only ev = false)) (main env config)).
    emits_auto.
Qed.

(** ** The static copy under failures *)

(** What a copy of [f], finished or not, makes of a path [p] of the target:
    it leaves it as it is, or [p] is [f] and is then absent or holds the
    first bytes, up to all of them, that [f] has in the source. *)
Lemma copy_reaches (src t t' : Tree) (f : path) (bytes : list Byte.byte) :
  src !! f = Some bytes ->
  (t' = t \/ t' = delete f t \/ exists n, t' = <[ f := take n bytes ]> t) ->
  forall p,
    t' !! p = t !! p \/
    (p = f /\ exists bytes, src !! p = Some bytes /\
               (t' !! p = None \/ exists n, t' !! p = Some (take n bytes))).
Proof.
  intros Hbytes Hstep p. destruct (decide (p = f)) as [-> | Hne].
  - destruct Hstep as [-> | [-> | [n ->]]]; [ left; reflexivity | right | right ];
      (split; [ reflexivity | ]); exists bytes; (split; [ exact Hbytes | ]).
    + left. apply lookup_delete_eq.
    + right. exists n. apply lookup_insert_eq.
  - left. destruct Hstep as [-> | [-> | [n ->]]]; [ reflexivity | | ].
    + apply lookup_delete_ne. congruence.
    + apply lookup_insert_ne. congruence.
Qed.

(** One round of the loop, however it ends. *)
Lemma copy_file_writes (src : Tree) (f : path) (w : World) (t : Tree) :
  includeTree w = Some src ->
  dataDirTree w = Some t ->
  includeTree (snd (copy_file env f w)) = Some src /\
  exists t' : Tree,
    dataDirTree (snd (copy_file env f w)) = Some t' /\
    forall p,
      t' !! p = t !! p \/
      (p = f /\ exists bytes, src !! p = Some bytes /\
                 (t' !! p = None \/ exists n, t' !! p = Some (take n bytes))).
Proof.
  intros Hsrc Ht. destruct w as [tree isRepo inc cfgFile g timer pending next now calls0].
  cbn in Hsrc, Ht. subst tree inc.
  unfold copy_file.
  run_program; (split; [ reflexivity | ]); eexists; (split; [ reflexivity | ]);
    try (intros p; left; reflexivity);
    (eapply copy_reaches; [ eassumption | ]).
  all: first
         [ unfold leave; destruct (copy_leftover env _);
           [ left | right; left | right; right; eexists ]; reflexivity
         | right; right;
           match goal with
           | |- exists n, <[ _ := ?b ]> _ = _ => exists (length b)
           end;
           rewrite firstn_all; reflexivity ].
Qed.

(** A round of the loop that returns has written the file whole. *)
Lemma copy_file_whole (src : Tree) (f : path) (w w' : World) (t : Tree) :
  includeTree w = Some src ->
  dataDirTree w = Some t ->
  copy_file env f w = (Ret tt, w') ->
  includeTree w' = Some src /\
  exists bytes, src !! f = Some bytes /\ dataDirTree w' = Some (<[ f := bytes ]> t).
Proof.
  intros Hsrc Ht. destruct w as [tree isRepo inc cfgFile g timer pending next now calls0].
  cbn in Hsrc, Ht. subst tree inc.
  unfold copy_file.
  run_program; intros Hrun; try discriminate Hrun; injection Hrun as <-;
    (split; [ reflexivity | ]); eexists; split; reflexivity.
Qed.

(** A loop that returns leaves the paths that are not listed as they
    were. *)
Lemma for_of_copy_file_rest (src : Tree) (files : list path) :
  forall (w : World) (t : Tree),
    includeTree w = Some src ->
    dataDirTree w = Some t ->
    forall w',
      for_of files (copy_file env) w = (Ret tt, w') ->
      exists t' : Tree,
        dataDirTree w' = Some t' /\
        forall p, p ∉ files -> t' !! p = t !! p.
Proof.
  induction files as [|f files IH]; intros w t Hsrc Ht w' Hrun.
  - cbn in Hrun. injection Hrun as <-. exists t. split; [ exact Ht | reflexivity ].
  - cbn [for_of] in Hrun. unfold bind in Hrun.
    destruct (copy_file env f w) as [[[]|e|c] w1] eqn:Hstep; try discriminate Hrun.
    destruct (copy_file_whole src f w w1 t Hsrc Ht Hstep) as (Hsrc1 & bytes & Hbytes & Ht1).
    destruct (IH w1 _ Hsrc1 Ht1 w' Hrun) as (t' & Ht' & Hrest).
    exists t'. split; [ exact Ht' | ].
    intros p Hp. rewrite Hrest by (intros Hin; apply Hp; right; exact Hin).
    apply lookup_insert_ne. intros <-. apply Hp. left.
Qed.

(** A loop that returns has written every listed file whole. *)
Lemma for_of_copy_file_whole (src : Tree) (files : list path) :
  forall (w : World) (t : Tree),
    includeTree w = Some src ->
    dataDirTree w = Some t ->
    forall w',
      for_of files (copy_file env) w = (Ret tt, w') ->
      exists t' : Tree,
        dataDirTree w' = Some t' /\
        forall p, p ∈ files -> t' !! p = src !! p.
Proof.
  induction files as [|f files IH]; intros w t Hsrc Ht w' Hrun.
  - cbn in Hrun. injection Hrun as <-. exists t. split; [ exact Ht | ].
    intros p Hp. inversion Hp.
  - cbn [for_of] in Hrun. unfold bind in Hrun.
    destruct (copy_file env f w) as [[[]|e|c] w1] eqn:Hstep; try discriminate Hrun.
    destruct (copy_file_whole src f w w1 t Hsrc Ht Hstep) as (Hsrc1 & bytes & Hbytes & Ht1).
    destruct (IH w1 _ Hsrc1 Ht1 w' Hrun) as (t' & Ht' & Hlisted).
    destruct (for_of_copy_file_rest src files w1 _ Hsrc1 Ht1 w' Hrun) as (t'' & Ht'' & Hrest).
    rewrite Ht' in Ht''. injection Ht'' as <-.
    exists t'. split; [ exact Ht' | ].
    intros p Hp. destruct (decide (p ∈ files)) as [Hin | Hout]; [ exact (Hlisted p Hin) | ].
    apply elem_of_cons in Hp. destruct Hp as [-> | Hin]; [ | contradiction ].
    rewrite (Hrest f Hout), lookup_insert_eq, Hbytes. reflexivity.
Qed.

(** The loop, however it ends: every path of the target is as it was, or is
    a listed file, and is then absent or holds the first bytes, up to all of
    them, that it has in the source. *)
Lemma for_of_copy_file_writes (src : Tree) (files : list path) :
  forall (w : World) (t : Tree),
    includeTree w = Some src ->
    dataDirTree w = Some t ->
    includeTree (snd (for_of files (copy_file env) w)) = Some src /\
    exists t' : Tree,
      dataDirTree (snd (for_of files (copy_file env) w)) = Some t' /\
      forall p,
        t' !! p = t !! p \/
        (p ∈ files /\ exists bytes, src !! p = Some bytes /\
                       (t' !! p = None \/ exists n, t' !! p = Some (take n bytes))).
Proof.
  induction files as [|f files IH]; intros w t Hsrc Ht.
  - cbn. split; [ exact Hsrc | ]. exists t. split; [ exact Ht | ]. intros p. left. reflexivity.
  - cbn [for_of]. unfold bind.
    destruct (copy_file_writes src f w t Hsrc Ht) as (Hsrc1 & t1 & Ht1 & Hstep).
    assert (Hfirst : forall p,
               t1 !! p = t !! p \/
               (p ∈ f :: files /\ exists bytes, src !! p = Some bytes /\
                                  (t1 !! p = None \/ exists n, t1 !! p = Some (take n bytes)))).
    { intros p. destruct (Hstep p) as [Hp | (-> & Hp)]; [ left; exact Hp | right ].
      split; [ left | exact Hp ]. }
    destruct (copy_file env f w) as [[[]|e|c] w1]; cbn [fst snd] in *.
    + destruct (IH w1 t1 Hsrc1 Ht1) as (Hsrc2 & t2 & Ht2 & Hall).
      split; [ exact Hsrc2 | ]. exists t2. split; [ exact Ht2 | ].
      intros p. destruct (Hall p) as [Hp | (Hin & Hp)].
      * rewrite Hp. apply Hfirst.
      * right. split; [ right; exact Hin | exact Hp ].
    + split; [ exact Hsrc1 | ]. exists t1. split; [ exact Ht1 | exact Hfirst ].
    + split; [ exact Hsrc1 | ]. exists t1. split; [ exact Ht1 | exact Hfirst ].
Qed.

(** The static copy, whatever fails and wherever it stops, touches nothing
    but files that the enumeration lists: a file that is not listed is
    never copied, and no other file of the target is removed or changed.  A
    listed file is not always whole: a copy that fails may leave the first
    bytes of it only, or remove what was at its path.  When the step
    returns, every listed file is whole. *)
Theorem static_copy_touches_only_listed_files (w : World) (src t : Tree) :
  includeTree w = Some src ->
  dataDirTree w = Some t ->
  exists t' : Tree,
    dataDirTree (snd (copyIncludedDir env config w)) = Some t' /\
    (forall p,
       t' !! p = t !! p \/
       (p ∈ glob_files env (copy_options config) src /\
        exists bytes, src !! p = Some bytes /\
                      (t' !! p = None \/ exists n, t' !! p = Some (take n bytes)))) /\
    (fst (copyIncludedDir env config w) = Ret tt ->
     forall p, p ∈ glob_files env (copy_options config) src -> t' !! p = src !! p).
Proof.
  intros Hsrc Ht. destruct w as [tree isRepo inc cfgFile g timer pending next now calls0].
  cbn in Hsrc, Ht. subst tree inc.
  unfold copyIncludedDir. autounfold with program. cbn -[for_of glob_files].
  fold (copy_options config).
  match goal with
  | |- context [for_of (glob_files env (copy_options config) src) (copy_file env) ?w1] =>
      destruct (for_of_copy_file_writes src (glob_files env (copy_options config) src) w1 t
                  eq_refl eq_refl) as (_ & t' & Ht' & Hall);
      pose proof (for_of_copy_file_whole src (glob_files env (copy_options config) src) w1 t
                    eq_refl eq_refl) as Hwhole;
      destruct (for_of (glob_files env (copy_options config) src) (copy_file env) w1)
        as [[[]|e|c] w2]
  end; cbn in *;
    (exists t'; split; [ exact Ht' | split; [ exact Hall | ] ]);
    try discriminate.
  intros _ p Hp. destruct (Hwhole w2 eq_refl) as (t'' & Ht'' & Hlisted).
  rewrite Ht' in Ht''. injection Ht'' as <-. exact (Hlisted p Hp).
Qed.

End BuildScript.

Lemma build_fails_before_the_data_directory_without_config_witness :
  fst (build read_only_env (docs_config acme_url None 0) bare_world) = Exit 1 /\
  history (snd (build read_only_env (docs_config acme_url None 0) bare_world)) =
    history bare_world ++
    [ ExistsConfig; WriteConfig;
      Console (MsgErr "Build failed:" (Error "EROFS: read-only file system")) ] /\
  dataDirTree (snd (build read_only_env (docs_config acme_url None 0) bare_world)) =
    dataDirTree bare_world.
Proof.
  apply (build_fails_before_the_data_directory_without_config
           read_only_env (docs_config acme_url None 0) bare_world
           (Error "EROFS: read-only file system"));
    reflexivity.
Defined.

Lemma build_without_source_empties_the_directory_witness :
  exists w',
    prepareDataDir fair_env (docs_config None None 0) (fresh_world (Some docs_tree) false None)
    = (Ret tt, w') /\
    dataDirTree w' = Some ∅ /\
    history w' =
      history (fresh_world (Some docs_tree) false None) ++
      [ Console (Msg "Building docs-mcp package...");
        EnsureDir;
        EmptyDir;
        Console (Msg "No includeDir or gitUrl specified. Created empty data directory.");
        Console (Msg "Build completed successfully!") ].
Proof.
  apply (build_without_source_empties_the_directory
           fair_env (docs_config None None 0) (fresh_world (Some docs_tree) false None));
    intros; reflexivity.
Defined.

Lemma build_with_interval_clones_the_repository_witness :
  exists w',
    prepareDataDir fair_env (docs_config acme_url None 5) (fresh_world None false None)
    = (Ret tt, w') /\
    dataDirTree w' = Some docs_tree /\
    dataDirRepo w' = true /\
    history w' =
      history (fresh_world None false None) ++
      [ Console (Msg "Building docs-mcp package...");
        EnsureDir;
        EmptyDir;
        Console (Msg "Auto-update enabled. Using git clone.");
        Console (Msg "Cloning Git repository...");
        GitClone acme_url (Some "main") 1 (Some ∅);
        Console (Msg "Successfully cloned repository");
        Console (Msg "Build completed successfully!") ].
Proof.
  apply (build_with_interval_clones_the_repository
           fair_env (docs_config acme_url None 5) (fresh_world None false None) docs_tree);
    intros; reflexivity.
Defined.

Lemma archive_failure_falls_back_to_clone_witness :
  exists w',
    downloadAndExtractTarball no_archive_env (docs_config acme_url None 0)
      (fresh_world (Some ∅) false None) = (Ret tt, w') /\
    dataDirTree w' = Some docs_tree /\
    dataDirRepo w' = true /\
    history w' =
      history (fresh_world (Some ∅) false None) ++
      [ Console (Msg "Attempting to download archive...");
        HttpGet (tarballUrl (docs_config acme_url None 0) "acme" "docs");
        Console (MsgErr "Error downloading or extracting tarball:"
                   (Error "Request failed with status code 404"));
        Console (Msg "Falling back to git clone...");
        Console (Msg "Cloning Git repository...");
        GitClone (Some "https://github.com/acme/docs") (Some "main") 1 (Some ∅);
        Console (Msg "Successfully cloned repository") ].
Proof.
  apply (archive_failure_falls_back_to_clone
           no_archive_env (docs_config acme_url None 0) (fresh_world (Some ∅) false None)
           "https://github.com/acme/docs" "acme" "docs"
           (Error "Request failed with status code 404") docs_tree);
    intros; reflexivity.
Defined.

Lemma unmatched_url_is_cloned_without_download_witness :
  exists evs,
    trace (snd (downloadAndExtractTarball fair_env
                  (docs_config (Some "https://github.com/acme/docs/") None 0)
                  (fresh_world (Some ∅) false None)))
    = evs ++ trace (fresh_world (Some ∅) false None) /\
    Forall (fun ev => is_archive_or_copy ev = false) evs /\
    length (List.filter is_clone evs) = 1%nat.
Proof.
  apply (unmatched_url_is_cloned_without_download
           fair_env (docs_config (Some "https://github.com/acme/docs/") None 0)
           (fresh_world (Some ∅) false None) "https://github.com/acme/docs/");
    reflexivity.
Defined.

(** On a disk that fills up, the first copy leaves two bytes of its file
    and the step throws. *)
Lemma static_copy_touches_only_listed_files_witness :
  exists t' : Tree,
    dataDirTree (snd (copyIncludedDir full_disk_env (docs_config None (Some "/srv/docs") 0)
                        (fresh_world (Some ∅) false (Some site_tree)))) = Some t' /\
    (forall p,
       t' !! p = (∅ : Tree) !! p \/
       (p ∈ glob_files full_disk_env (copy_options (docs_config None (Some "/srv/docs") 0))
              site_tree /\
        exists bytes, site_tree !! p = Some bytes /\
                      (t' !! p = None \/ exists n, t' !! p = Some (take n bytes)))) /\
    (fst (copyIncludedDir full_disk_env (docs_config None (Some "/srv/docs") 0)
            (fresh_world (Some ∅) false (Some site_tree))) = Ret tt ->
     forall p,
       p ∈ glob_files full_disk_env (copy_options (docs_config None (Some "/srv/docs") 0))
             site_tree ->
       t' !! p = site_tree !! p).
Proof.
  apply (static_copy_touches_only_listed_files
           full_disk_env (docs_config None (Some "/srv/docs") 0)
           (fresh_world (Some ∅) false (Some site_tree)) site_tree ∅);
    reflexivity.
Defined.

(** ** The pattern for repository URLs *)

Lemma append_assoc (a b c : string) : (a +:+ b) +:+ c = a +:+ (b +:+ c).
Proof.
  induction a as [|x a IH]; [ reflexivity | ].
  rewrite !append_cons, IH. reflexivity.
Qed.

Lemma slashes_append a b : slashes (a +:+ b) = (slashes a + slashes b)%nat.
Proof.
  induction a as [|x a IH]; [ reflexivity | ].
  rewrite append_cons. cbn [slashes]. rewrite IH. lia.
Qed.

Lemma no_slash_slashes s : no_slash s = true <-> slashes s = 0%nat.
Proof.
  induction s as [|c s IH]; cbn [no_slash slashes]; [ tauto | ].
  destruct (is_slash c); cbn; [ split; [ discriminate | lia ] | exact IH ].
Qed.

Lemma segment_slashes s : segment s = true -> slashes s = 0%nat.
Proof.
  unfold segment. intros H. apply andb_prop in H. apply no_slash_slashes. tauto.
Qed.

Lemma is_slash_eq c : is_slash c = true -> c = "/"%char.
Proof. unfold is_slash. apply Ascii.eqb_eq. Qed.

Lemma strip_prefix_inv p s t : strip_prefix p s = Some t -> s = p +:+ t.
Proof.
  revert s. induction p as [|a p IH]; intros s; cbn [strip_prefix].
  - intros [= ->]. reflexivity.
  - destruct s as [|b s]; [ discriminate | ].
    destruct (Ascii.eqb_spec a b) as [<- | _]; [ | discriminate ].
    intros H. rewrite append_cons, (IH s H). reflexivity.
Qed.

Lemma span_segment_inv s seg tl :
  span_segment s = (seg, tl) ->
  s = seg +:+ tl /\ no_slash seg = true /\
  (tl = EmptyString \/ exists tl', tl = String "/" tl').
Proof.
  revert seg tl. induction s as [|c s IH]; intros seg tl; cbn [span_segment].
  - intros [= <- <-]. auto.
  - destruct (is_slash c) eqn:Hc.
    + intros [= <- <-]. apply is_slash_eq in Hc. subst c.
      split; [ reflexivity | split; [ reflexivity | right; eauto ] ].
    + destruct (span_segment s) as [seg' tl'] eqn:Hs. intros [= <- <-].
      destruct (IH seg' tl' eq_refl) as (-> & Hseg & Htl).
      split; [ reflexivity | split; [ | exact Htl ] ].
      cbn [no_slash]. rewrite Hc, Hseg. reflexivity.
Qed.

Lemma lazy_segment_inv s r :
  lazy_segment s = Some r ->
  segment r = true /\ (s = r \/ s = r +:+ ".git").
Proof.
  revert r. induction s as [|c s IH]; intros r; [ discriminate | ].
  rewrite lazy_segment_cons.
  destruct (is_slash c) eqn:Hc; [ discriminate | ].
  destruct ((s =? ".git") || (s =? EmptyString))%string eqn:Hend.
  - intros [= <-]. split; [ unfold segment; cbn; rewrite Hc; reflexivity | ].
    apply orb_prop in Hend. destruct Hend as [H | H]; apply String.eqb_eq in H; subst s; auto.
  - destruct (lazy_segment s) as [r'|] eqn:Hs; [ | discriminate ].
    intros [= <-]. destruct (IH r' eq_refl) as (Hseg & Hshape).
    split.
    + unfold segment in *. cbn. rewrite Hc. cbn.
      apply andb_prop in Hseg. tauto.
    + destruct Hshape as [-> | ->]; [ left | right ]; reflexivity.
Qed.

(** What the pattern matches at a position: [github.com/], two segments,
    and nothing or [.git] up to the end. *)
Lemma match_here_inv s owner repo :
  match_here s = Some (owner, repo) ->
  segment owner = true /\ segment repo = true /\
  exists suffix,
    s = "github.com/" +:+ owner +:+ "/" +:+ repo +:+ suffix /\
    (suffix = EmptyString \/ suffix = ".git"%string).
Proof.
  unfold match_here.
  destruct (strip_prefix "github.com/" s) as [after_host|] eqn:Hhost; [ | discriminate ].
  apply strip_prefix_inv in Hhost. subst s.
  destruct (span_segment after_host) as [o tl] eqn:Hspan.
  apply span_segment_inv in Hspan. destruct Hspan as (-> & Ho & Htl).
  destruct o as [|c o]; [ discriminate | ].
  destruct tl as [|d after_owner]; [ discriminate | ].
  destruct (is_slash d) eqn:Hd; [ | discriminate ].
  apply is_slash_eq in Hd. subst d.
  destruct (lazy_segment after_owner) as [r|] eqn:Hlazy; [ | discriminate ].
  intros [= <- <-]. apply lazy_segment_inv in Hlazy. destruct Hlazy as (Hr & Hshape).
  split; [ unfold segment; exact Ho | split; [ exact Hr | ] ].
  destruct Hshape as [-> | ->].
  - exists EmptyString. rewrite append_empty_r. auto.
  - exists ".git"%string. auto.
Qed.

Lemma github_match_inv url owner repo :
  github_match url = Some (owner, repo) ->
  segment owner = true /\ segment repo = true /\
  exists before suffix,
    url = before +:+ "github.com/" +:+ owner +:+ "/" +:+ repo +:+ suffix /\
    (suffix = EmptyString \/ suffix = ".git"%string).
Proof.
  induction url as [|c url IH].
  - discriminate.
  - cbn [github_match].
    destruct (match_here (String c url)) as [[o r]|] eqn:Hhere.
    + intros [= <- <-]. apply match_here_inv in Hhere.
      destruct Hhere as (Ho & Hr & suffix & Hs & Hsuffix).
      split; [ exact Ho | split; [ exact Hr | ] ].
      exists EmptyString, suffix. auto.
    + intros H. destruct (IH H) as (Ho & Hr & before & suffix & -> & Hsuffix).
      split; [ exact Ho | split; [ exact Hr | ] ].
      exists (String c before), suffix. auto.
Qed.

(** The pattern does not match from a position before a [github.com/] that
    is followed by exactly two segments: it would need a third slash. *)
Lemma match_here_before c before owner repo suffix :
  segment owner = true ->
  segment repo = true ->
  slashes suffix = 0%nat ->
  match_here (String c (before +:+ "github.com/" +:+ owner +:+ "/" +:+ repo +:+ suffix)) = None.
Proof.
  intros Ho Hr Hs.
  destruct (match_here _) as [[o' r']|] eqn:Hhere; [ exfalso | reflexivity ].
  apply match_here_inv in Hhere. destruct Hhere as (Ho' & Hr' & suffix' & Heq & Hsuffix').
  assert (Hs' : slashes suffix' = 0%nat) by (destruct Hsuffix' as [-> | ->]; reflexivity).
  pose proof (f_equal slashes Heq) as Hcount.
  change (String c (before +:+ "github.com/" +:+ owner +:+ "/" +:+ repo +:+ suffix))
    with (String c before +:+ "github.com/" +:+ owner +:+ "/" +:+ repo +:+ suffix) in Hcount.
  rewrite !slashes_append in Hcount.
  rewrite (segment_slashes _ Ho), (segment_slashes _ Hr), (segment_slashes _ Ho'),
    (segment_slashes _ Hr'), Hs, Hs' in Hcount.
  change (slashes "github.com/") with 1%nat in Hcount.
  change (slashes "/") with 1%nat in Hcount.
  assert (Hbefore : no_slash (String c before +:+ "github.com") = true).
  { apply no_slash_slashes. rewrite slashes_append. change (slashes "github.com") with 0%nat. lia. }
  pose proof (f_equal span_segment Heq) as Hspan.
  change (String c (before +:+ "github.com/" +:+ owner +:+ "/" +:+ repo +:+ suffix))
    with (String c before +:+ ("github.com" +:+ "/" +:+ owner +:+ "/" +:+ repo +:+ suffix)) in Hspan.
  rewrite <- append_assoc in Hspan.
  rewrite (span_segment_slash _ _ Hbefore) in Hspan.
  change ("github.com/" +:+ o' +:+ "/" +:+ r' +:+ suffix')
    with ("github.com" +:+ "/" +:+ o' +:+ "/" +:+ r' +:+ suffix') in Hspan.
  rewrite (span_segment_slash "github.com" _ eq_refl) in Hspan.
  apply (f_equal (fun p => String.length (fst p))) in Hspan. cbn [fst] in Hspan.
  rewrite length_append in Hspan. cbn in Hspan. lia.
Qed.

Lemma match_here_shape owner repo (with_git : bool) :
  segment owner = true ->
  segment repo = true ->
  (with_git = false -> has_git_suffix repo = false) ->
  match_here ("github.com/" +:+ owner +:+ "/" +:+ repo
              +:+ (if with_git then ".git" else EmptyString)) = Some (owner, repo).
Proof.
  intros Howner Hrepo Hsuffix.
  unfold match_here. rewrite strip_prefix_app.
  unfold segment in Howner. apply andb_prop in Howner. destruct Howner as [Hne Hslash].
  rewrite (span_segment_slash owner _ Hslash).
  destruct owner as [|c owner]; [ discriminate | ].
  rewrite append_cons.
  change (EmptyString +:+ repo +:+ (if with_git then ".git" else EmptyString))
    with (repo +:+ (if with_git then ".git" else EmptyString)).
  change (is_slash "/") with true. cbv iota.
  destruct with_git.
  - rewrite (lazy_segment_git repo Hrepo). reflexivity.
  - rewrite append_empty_r.
    rewrite (lazy_segment_plain repo Hrepo (Hsuffix eq_refl)). reflexivity.
Qed.

(** The pattern is not anchored at the start of the URL: whatever stands
    before [github.com/] (a scheme, credentials, a sub-domain, the rest of
    another host name), a URL that ends in [github.com/<owner>/<repo>] or
    [github.com/<owner>/<repo>.git] gives the groups [owner] and [repo]. *)
Theorem archive_pattern_ignores_what_precedes_the_host
    (before owner repo : string) (with_git : bool) :
  segment owner = true ->
  segment repo = true ->
  (with_git = false -> has_git_suffix repo = false) ->
  github_match (before +:+ "github.com/" +:+ owner +:+ "/" +:+ repo
                +:+ (if with_git then ".git" else EmptyString)) = Some (owner, repo).
Proof.
  intros Howner Hrepo Hsuffix.
  induction before as [|c before IH].
  - change (EmptyString +:+ "github.com/" +:+ owner +:+ "/" +:+ repo
            +:+ (if with_git then ".git" else EmptyString))
      with (String "g" ("ithub.com/" +:+ owner +:+ "/" +:+ repo
                        +:+ (if with_git then ".git" else EmptyString))).
    cbn [github_match].
    change (String "g" ("ithub.com/" +:+ owner +:+ "/" +:+ repo
                        +:+ (if with_git then ".git" else EmptyString)))
      with ("github.com/" +:+ owner +:+ "/" +:+ repo
            +:+ (if with_git then ".git" else EmptyString)).
    rewrite (match_here_shape owner repo with_git Howner Hrepo Hsuffix). reflexivity.
  - rewrite append_cons. cbn [github_match].
    rewrite match_here_before; [ exact IH | exact Howner | exact Hrepo | ].
    destruct with_git; reflexivity.
Qed.

Lemma ends_with_slash s : ends_with "/" (s +:+ "/") = true.
Proof.
  induction s as [|c s IH]; [ reflexivity | ].
  rewrite append_cons. cbn [ends_with]. rewrite IH. apply orb_true_r.
Qed.

Lemma ends_with_no_slash s : slashes s = 0%nat -> ends_with "/" s = false.
Proof.
  induction s as [|c s IH]; [ reflexivity | ].
  cbn [slashes ends_with]. destruct (is_slash c) eqn:Hc; [ discriminate | ].
  intros Hs. rewrite (IH Hs), orb_false_r.
  apply String.eqb_neq. intros [= -> _]. discriminate.
Qed.

Lemma ends_with_append a b :
  b <> EmptyString -> ends_with "/" (a +:+ b) = ends_with "/" b.
Proof.
  intros Hb. induction a as [|c a IH]; [ reflexivity | ].
  rewrite append_cons. cbn [ends_with]. rewrite IH.
  replace (String c (a +:+ b) =? "/")%string with false; [ reflexivity | ].
  symmetry. apply String.eqb_neq. intros [= _ Hab].
  destruct a; [ cbn in Hab; contradiction | discriminate ].
Qed.

(** A URL that ends with a slash is not matched, so a repository given as
    [https://github.com/<owner>/<repo>/] is cloned, not downloaded. *)
Theorem archive_pattern_rejects_a_trailing_slash (s : string) :
  github_match (s +:+ "/") = None.
Proof.
  destruct (github_match (s +:+ "/")) as [[o r]|] eqn:Hm; [ exfalso | reflexivity ].
  apply github_match_inv in Hm.
  destruct Hm as (Ho & Hr & before & suffix & Heq & Hsuffix).
  apply (f_equal (ends_with "/")) in Heq. rewrite ends_with_slash in Heq.
  rewrite <- !append_assoc in Heq. rewrite append_assoc in Heq.
  rewrite ends_with_append in Heq.
  - rewrite ends_with_no_slash in Heq; [ discriminate | ].
    rewrite slashes_append, (segment_slashes _ Hr).
    destruct Hsuffix as [-> | ->]; reflexivity.
  - destruct r; [ discriminate | rewrite append_cons; discriminate ].
Qed.

(** The only HTTP request that a build can make is for the archive of the
    repository that [gitUrl] names in its last two segments, at the
    configured ref: [gitUrl] then ends in [github.com/<owner>/<repo>] or
    [github.com/<owner>/<repo>.git], with [owner] and [repo] not empty and
    without a slash, and the URL requested is
    [https://github.com/<owner>/<repo>/archive/<ref>.tar.gz]. *)
Theorem build_requests_only_the_repository_archive (env : Env) (config : Config) (w : World) :
  exists evs,
    trace (snd (build env config w)) = evs ++ trace w /\ Forall (archive_of config) evs.
Proof.
  revert w. change (keeps (emits (archive_of config)) (build env config)).
  pose proof (emits_preorder (archive_of config)).
  repeat keeps_step;
    try first [ apply emits_record; cbn; auto | apply emits_quiet; reflexivity ].
  match goal with
  | Hm : github_match ?url = Some _ |- _ =>
      apply github_match_inv in Hm;
      destruct Hm as (Ho & Hr & before & suffix & -> & Hsuffix)
  end.
  exists before. eauto 10.
Qed.

Lemma archive_pattern_ignores_what_precedes_the_host_witness :
  github_match ("ssh://git@" +:+ "github.com/" +:+ "acme" +:+ "/" +:+ "docs" +:+ ".git")
  = Some ("acme", "docs").
Proof.
  apply (archive_pattern_ignores_what_precedes_the_host "ssh://git@" "acme" "docs" true);
    [ reflexivity | reflexivity | discriminate ].
Defined.

(** ** Start-up of the server *)

Section Server.

Variable env : Env.
Variable config : Config.

(** What a start-up that returns has done. *)
Lemma main_returns_inv (w w' : World) :
  main env config w = (Ret tt, w') ->
  is_Some (dataDirTree w') /\
  (updateTimer w = None -> timers w = ∅ -> one_timer w') /\
  exists evs,
    trace w' = Console (Msg "Docs MCP server running on stdio") :: Connect :: evs ++ trace w /\
    Forall (fun ev => ev <> Connect) evs.
Proof.
  unfold main, ensure_data_directory, run, checkForUpdates, checkForUpdates_try,
    downloadAndExtractTarballRuntime.
  run_program; intros Hrun; try discriminate Hrun; simplify_eq;
    (split; [ cbn; eauto | ]);
    (split; [ intros Htimer Htimers; try discriminate Htimer; unfold one_timer; cbn;
              rewrite ?Htimers;
              first [ left; reflexivity
                    | right; do 2 eexists; split; [ reflexivity | apply insert_empty ] ] | ]);
    (eexists; split; [ cbn [trace record set_dataDirTree set_dataDirRepo set_configFile set_git
                            set_updateTimer set_timers];
                       do 2 apply (f_equal (cons _)); trace_suffix
                     | repeat constructor; discriminate ]).
Qed.

Lemma main_exits_with_1 : exits_in (eq 1%Z) (main env config).
Proof. repeat exits_step; reflexivity. Qed.

Lemma main_never_throws : never_throws (main env config).
Proof.
  unfold main. apply never_throws_bind; [ | intros _ ];
    apply never_throws_try_catch; intros e; apply never_throws_log_and_exit.
Qed.

(** With the configuration loaded, ensuring the data directory and
    [server.run()] never throw, so the [catch] after [server.run()] has
    nothing to catch: start-up ends the process with exit code 1, or it
    returns, and then the data directory exists, the transport has been
    connected, once and as the last call but the console line that follows
    it. *)
Theorem main_returns_connected_or_exits_with_1 (w : World) :
  (fst (main env config w) = Ret tt /\
   is_Some (dataDirTree (snd (main env config w))) /\
   exists evs,
     trace (snd (main env config w)) =
       Console (Msg "Docs MCP server running on stdio") :: Connect :: evs ++ trace w /\
     Forall (fun ev => ev <> Connect) evs) \/
  fst (main env config w) = Exit 1.
Proof.
  pose proof (main_never_throws w) as Hthrow.
  pose proof (main_exits_with_1 w) as Hexit.
  pose proof (main_returns_inv w) as Hret.
  destruct (main env config w) as [[[]|e|c] w'] eqn:Hmain; cbn [fst snd] in *.
  - left. destruct (Hret w' eq_refl) as (Hdir & _ & Hevs). auto.
  - exfalso. exact (Hthrow e eq_refl).
  - right. rewrite <- (Hexit c eq_refl). reflexivity.
Qed.

(** When the data directory cannot be ensured, loading the module ends the
    process with exit code 1 at once: no server is made and nothing else is
    called. *)
Theorem main_stops_when_the_data_directory_cannot_be_ensured (w : World) (e : Err) :
  ensureDir_error env (EnsureDir :: trace w) = Some e ->
  fst (main env config w) = Exit 1 /\
  history (snd (main env config w)) =
    history w ++
    [ EnsureDir; Console (MsgErr "Failed to ensure data directory exists" e) ] /\
  dataDirTree (snd (main env config w)) = dataDirTree w.
Proof.
  intros He. unfold main, ensure_data_directory. autounfold with program. cbn.
  rewrite He. cbn.
  split; [ reflexivity | split; [ trace_eq | reflexivity ] ].
Qed.

(** Without a repository the server takes the data directory as it finds
    it: in a process whose [updateTimer] is still [null], [run] makes
    console calls and the connection and nothing else, and changes neither
    the directory nor a timer.  It returns when the connection is made, and
    ends the process with exit code 1 when it is refused. *)
Theorem runtime_without_repository_serves_the_directory_as_found (w : World) :
  sourceKind config <> repository ->
  updateTimer w = None ->
  untouched w (snd (run env config w)) /\
  (exists evs,
     trace (snd (run env config w)) = evs ++ trace w /\ Forall console_or_connect evs) /\
  ((forall calls, connect_error env calls = None) -> fst (run env config w) = Ret tt) /\
  (forall e, (forall calls, connect_error env calls = Some e) ->
             fst (run env config w) = Exit 1).
Proof.
  intros Hk Htimer. apply sourceKind_not_repository in Hk.
  destruct w as [tree isRepo inc cfgFile g timer pending next now calls0].
  cbn in Htimer. subst timer.
  unfold run. autounfold with program. cbn. rewrite Hk.
  run_program;
    (split; [ repeat split | split; [ eexists; split; [ trace_suffix | repeat constructor ] | ] ]);
    (split; [ intros Hconnect | intros e' Hconnect ]);
    try reflexivity; rewrite Hconnect in *; discriminate.
Qed.

(** A first clone that fails ends the process with exit code 1, and the
    transport is never connected: the server does not start without its
    content. *)
Theorem runtime_clone_failure_ends_the_process (w : World) (e : Err) :
  sourceKind config = repository ->
  (0 < autoUpdateInterval config)%Z ->
  dataDirRepo w = false ->
  (forall calls, clone_answer env calls = inl e) ->
  fst (run env config w) = Exit 1 /\
  exists evs,
    trace (snd (run env config w)) = evs ++ trace w /\ Forall (fun ev => ev <> Connect) evs.
Proof.
  intros Hk Hn Hrepo Hclone. apply sourceKind_repository in Hk. apply Z.ltb_lt in Hn.
  destruct w as [tree isRepo inc cfgFile g timer pending next now calls0].
  cbn in Hrepo. subst isRepo.
  unfold run. autounfold with program. cbn. rewrite Hk, Hn.
  repeat (cbn -[tar_extract glob_files top_level github_match Z.mul Z.add for_of
                timer_delay leave];
          rewrite ?Hclone;
          try waiting_answer);
    (split; [ reflexivity | eexists; split; [ trace_suffix | repeat constructor; discriminate ] ]).
Qed.

(** The first start with a repository and a refresh interval, on a data
    directory that is not a git repository: when no call fails, the
    directory is emptied if and only if its listing is not empty, that is,
    if it holds a file or an entry without files such as an empty
    sub-directory; the clone is made in the empty directory, and the server
    is connected with exactly the work tree of the clone in the data
    directory, which is then a git repository.  Content that a build left
    there from an archive or a static copy is replaced. *)
Theorem runtime_first_clone_replaces_the_directory
    (w : World) (t c : Tree) (others : list string) :
  sourceKind config = repository ->
  (0 < autoUpdateInterval config)%Z ->
  dataDirRepo w = false ->
  dataDirTree w = Some t ->
  (forall calls, checkIsRepo_error env calls = None) ->
  (forall calls, readdir_error env calls = None) ->
  (forall calls, readdir_others env calls = others) ->
  (forall calls, emptyDir_error env calls = None) ->
  (forall calls, clone_answer env calls = inr c) ->
  (forall calls, connect_error env calls = None) ->
  exists w' evs,
    run env config w = (Ret tt, w') /\
    dataDirTree w' = Some c /\
    dataDirRepo w' = true /\
    trace w' = evs ++ trace w /\
    In (GitClone (gitUrl config) (gitRef config) 1 (Some ∅)) evs /\
    (In EmptyDir evs <-> t <> ∅ \/ others <> []).
Proof.
  intros Hk Hn Hrepo Ht Hcheck Hreaddir Hothers Hempty Hclone Hconnect.
  apply sourceKind_repository in Hk. apply Z.ltb_lt in Hn.
  destruct w as [tree isRepo inc cfgFile g timer pending next now calls0].
  cbn in Hrepo, Ht. subst isRepo tree.
  unfold run. autounfold with program. cbn -[top_level Nat.ltb]. rewrite Hk, Hn.
  cbn -[top_level Nat.ltb]. rewrite Hcheck. cbn -[top_level Nat.ltb]. rewrite Hreaddir.
  cbn -[top_level Nat.ltb]. rewrite Hothers.
  destruct (0 <? length (top_level t ++ others))%nat eqn:Hitems; cbn -[top_level Nat.ltb].
  - repeat (cbn -[top_level Nat.ltb]; rewrite ?Hempty, ?Hclone, ?Hconnect).
    do 2 eexists. split; [ reflexivity | ].
    split; [ cbn; rewrite (right_id_L ∅ (∪)); reflexivity | ].
    split; [ reflexivity | ].
    split; [ trace_suffix | ].
    split; [ cbn; tauto | ].
    split; [ intros _ | intros _; cbn; tauto ].
    destruct others as [|o others]; [ left | right; discriminate ].
    intros ->. discriminate Hitems.
  - apply Nat.ltb_ge in Hitems. apply Nat.le_0_r, nil_length_inv, app_eq_nil in Hitems.
    destruct Hitems as [Hitems ->]. apply top_level_nil in Hitems.
    subst t. repeat (cbn -[top_level Nat.ltb]; rewrite ?Hempty, ?Hclone, ?Hconnect).
    do 2 eexists. split; [ reflexivity | ].
    split; [ cbn; rewrite (right_id_L ∅ (∪)); reflexivity | ].
    split; [ reflexivity | ].
    split; [ trace_suffix | ].
    split; [ cbn; tauto | ].
    split; [ cbn; intuition discriminate | intros [H | H]; exfalso; apply H; reflexivity ].
Qed.

(** ** The synchronize cycle and the timers *)

(** A cycle makes no call but its own: it never clones, never empties the
    directory and never downloads.  The directory is as it was unless the
    cycle pulled, and restoring a directory that has stopped being a
    repository is not something a cycle does. *)
Theorem sync_cycle_changes_the_directory_only_by_pull (w : World) :
  exists evs,
    trace (snd (checkForUpdates env config w)) = evs ++ trace w /\
    Forall (cycle_call config) evs /\
    (dataDirTree (snd (checkForUpdates env config w)) = dataDirTree w \/
     In (GitPull "origin" (gitRef config)) evs) /\
    dataDirRepo (snd (checkForUpdates env config w)) = dataDirRepo w /\
    git (snd (checkForUpdates env config w)) = git w.
Proof.
  unfold checkForUpdates, checkForUpdates_try.
  run_program; try discriminate;
    (eexists; split; [ trace_suffix | ];
     split; [ repeat constructor | ];
     split; [ | split; first [ reflexivity | assumption ] ];
     first [ left; reflexivity
           | right; cbn; repeat (first [ left; reflexivity | right ]) ]).
Qed.

Lemma checkForUpdates_keeps_directory : keeps keeps_directory (checkForUpdates env config).
Proof.
  pose proof keeps_directory_preorder.
  repeat keeps_step; try (intros Hd; cbn; eauto).
Qed.

Lemma checkForUpdates_one_timer (w : World) :
  timers w = ∅ -> one_timer (snd (checkForUpdates env config w)).
Proof.
  intros Htimers.
  destruct w as [tree isRepo inc cfgFile g timer pending next now calls0].
  cbn in Htimers. subst pending.
  unfold checkForUpdates, checkForUpdates_try.
  run_program;
    first [ left; reflexivity
          | right; cbn; do 2 eexists; split; [ reflexivity | apply insert_empty ] ].
Qed.

Lemma fire_one_timer (id : nat) (t : Z) (w : World) o (w' : World) :
  one_timer w -> is_Some (dataDirTree w) ->
  fire env config id t w = Some (o, w') ->
  one_timer w' /\ is_Some (dataDirTree w').
Proof.
  intros [Hnone | (id0 & due & Htimer & Hone)] Hdir Hfire; unfold fire in Hfire.
  - rewrite Hnone, lookup_empty in Hfire. discriminate.
  - rewrite Hone in Hfire.
    destruct (decide (id0 = id)) as [-> | Hne].
    + rewrite lookup_singleton_eq, delete_singleton_eq in Hfire.
      destruct ((due <=? t)%Z && (clock w <=? t)%Z); [ | discriminate ].
      injection Hfire as Hfire.
      match type of Hfire with
      | checkForUpdates env config ?w1 = _ =>
          pose proof (checkForUpdates_one_timer w1 eq_refl) as H1;
          pose proof (checkForUpdates_keeps_directory w1 Hdir) as H2;
          rewrite Hfire in H1, H2
      end.
      split; [ exact H1 | exact H2 ].
    + rewrite lookup_singleton_ne in Hfire by exact Hne. discriminate.
Qed.

Lemma callTool_untouched request : keeps untouched (callTool env config request).
Proof.
  pose proof untouched_preorder.
  repeat keeps_step; repeat split.
Qed.

(** While the server is serving, at most one timeout is pending, the one
    that [updateTimer] holds, and the data directory exists: no two cycles
    are ever scheduled at once, whatever the callbacks that have run. *)
Theorem serving_has_one_pending_timeout_at_most (w : World) :
  serving env config w -> one_timer w /\ is_Some (dataDirTree w).
Proof.
  induction 1 as [w0 w Hgit Htimer Htimers Hmain | w w' Hserving [IHt IHd] Hstep].
  - destruct (main_returns_inv w0 w Hmain) as (Hdir & Hone & _). auto.
  - destruct Hstep as [id t w o w' Hfire _ | w o w' Hlist | request w o w' Hcall _].
    + exact (fire_one_timer id t w o w' IHt IHd Hfire).
    + injection Hlist as _ <-. auto.
    + pose proof (callTool_untouched request w) as Hsame.
      rewrite Hcall in Hsame. cbn in Hsame.
      destruct Hsame as (Htree' & _ & _ & _ & _ & Htimer' & Htimers' & _).
      unfold one_timer. rewrite Htimer', Htimers', Htree'. auto.
Qed.

(** On [SIGINT] the handler clears the timeout that [updateTimer] holds, if
    it holds one, and changes nothing else: the data directory and every
    other timeout are as they were, and [updateTimer] keeps what it held.
    It then closes the server: the process ends with exit code 0 once
    [close] has returned, and when [close] throws, the handler throws and
    [process.exit] is not reached.  When the signal arrives between two
    callbacks of a serving process, the timeout that is cleared is the only
    one pending, so none is pending when [close] starts.  A cycle that is
    suspended at an [await] when the signal arrives is not stopped: its
    timeout has fired already, and the handler does nothing about the one
    that the cycle arms when it ends. *)
Theorem sigint_clears_the_held_timeout_and_closes (server_close : M unit) (w : World) :
  exists w1,
    sigint_handler env server_close w = (server_close ;; process_exit 0) w1 /\
    timers w1 =
      match updateTimer w with
      | Some id => delete id (timers w)
      | None => timers w
      end /\
    updateTimer w1 = updateTimer w /\
    dataDirTree w1 = dataDirTree w /\
    dataDirRepo w1 = dataDirRepo w /\
    (forall w2, server_close w1 = (Ret tt, w2) ->
                sigint_handler env server_close w = (Exit 0, w2)) /\
    (forall e w2, server_close w1 = (Throw e, w2) ->
                  sigint_handler env server_close w = (Throw e, w2)) /\
    (serving env config w -> timers w1 = ∅).
Proof.
  unfold sigint_handler. autounfold with program. cbn.
  destruct (updateTimer w) as [id|] eqn:Htimer; cbn.
  - eexists. split; [ reflexivity | ].
    split; [ reflexivity | ].
    split; [ cbn; first [ exact Htimer | symmetry; exact Htimer ] | ].
    split; [ reflexivity | ].
    split; [ reflexivity | ].
    split; [ intros w2 Hclose; rewrite Hclose; reflexivity | ].
    split; [ intros e w2 Hclose; rewrite Hclose; reflexivity | ].
    intros Hserving. apply serving_has_one_pending_timeout_at_most in Hserving.
    destruct Hserving as [[Hnone | (id' & due & Htimer' & Hone)] _]; cbn.
    + rewrite Hnone. apply delete_empty.
    + rewrite Htimer in Htimer'. injection Htimer' as <-.
      rewrite Hone. apply delete_singleton_eq.
  - exists w. split; [ reflexivity | ].
    split; [ reflexivity | ].
    split; [ cbn; first [ exact Htimer | symmetry; exact Htimer ] | ].
    split; [ reflexivity | ].
    split; [ reflexivity | ].
    split; [ intros w2 Hclose; rewrite Hclose; reflexivity | ].
    split; [ intros e w2 Hclose; rewrite Hclose; reflexivity | ].
    intros Hserving. apply serving_has_one_pending_timeout_at_most in Hserving.
    destruct Hserving as [[Hnone | (id' & due & Htimer' & Hone)] _]; [ exact Hnone | ].
    rewrite Htimer in Htimer'. discriminate Htimer'.
Qed.

(** ** The tool handlers *)

(** [tools/list] and [tools/call] agree.  The list has one tool, named
    [config.toolName]; a call that names it gets a result, a call with any
    other name is rejected with [MethodNotFound] before anything is logged;
    and a call without a property that the listed schema requires gets a
    result with [isError], without a search. *)
Theorem listed_tool_is_the_one_served (request : Request) (w : World) :
  exists tool,
    listTools config w = (Ret [tool], w) /\
    (req_name request = tool_name tool ->
     exists res w', callTool env config request w = (Ret res, w')) /\
    (req_name request <> tool_name tool ->
     callTool env config request w =
       (Throw (McpError MethodNotFound
                 ("Unknown tool: " +:+ req_name request +:+ ". Expected: " +:+ tool_name tool)),
        w)) /\
    (forall k,
       req_name request = tool_name tool ->
       k ∈ required (inputSchema tool) ->
       get_prop (req_arguments request) k = JUndefined ->
       exists res w',
         callTool env config request w = (Ret res, w') /\ isError res = true /\
         searches (trace w') = searches (trace w)).
Proof.
  eexists. split; [ reflexivity | ]. cbn [tool_name inputSchema required].
  split; [ | split ].
  - intros Hname. unfold callTool, executeDocsSearch.
    apply String.eqb_eq in Hname. rewrite Hname.
    run_program; eexists; eexists; reflexivity.
  - intros Hname. unfold callTool. apply String.eqb_neq in Hname. rewrite Hname. reflexivity.
  - intros k Hname Hk Hundef. apply list_elem_of_singleton in Hk. subst k.
    unfold callTool, executeDocsSearch.
    apply String.eqb_eq in Hname. rewrite Hname. autounfold with program. cbn.
    rewrite Hundef. cbn.
    destruct (negb (js_truthy (req_arguments request))
              || negb (typeof_object (req_arguments request)));
      cbn; eexists; eexists; (split; [ reflexivity | split; reflexivity ]).
Qed.

(** The two checks of the arguments.  Arguments that are not an object
    ([null], a missing value, a string, a number, a boolean) are answered
    with "Arguments must be an object"; an object or an array whose [query]
    is missing or falsy (the empty string, 0, [false], [null]) is answered
    with "Query is required in arguments".  Both answers are results with
    [isError], not thrown errors. *)
Theorem tool_call_validates_its_arguments (request : Request) (w : World) :
  req_name request = toolName config ->
  (js_truthy (req_arguments request) && typeof_object (req_arguments request) = false ->
   fst (callTool env config request w) =
     Ret {| text := "Error executing " +:+ req_name request +:+ ": Arguments must be an object";
            isError := true |}) /\
  (js_truthy (req_arguments request) && typeof_object (req_arguments request) = true ->
   js_truthy (get_prop (req_arguments request) "query") = false ->
   fst (callTool env config request w) =
     Ret {| text := "Error executing " +:+ req_name request
                    +:+ ": Query is required in arguments";
            isError := true |}).
Proof.
  intros Hname. apply String.eqb_eq in Hname.
  unfold callTool. rewrite Hname. autounfold with program. cbn.
  split.
  - intros Hargs. apply andb_false_iff in Hargs.
    destruct Hargs as [-> | ->]; cbn; rewrite ?orb_true_r; reflexivity.
  - intros Hargs Hquery. apply andb_prop in Hargs. destruct Hargs as [-> ->]. cbn.
    rewrite Hquery. reflexivity.
Qed.

(** A tool call only reads: it leaves the data directory, the timers and
    the module variables as they are.  It calls the search collaborator
    once when the request names the tool and carries an arguments object
    with a truthy [query], and not at all otherwise. *)
Theorem tool_call_searches_only_for_a_valid_request (request : Request) (w : World) :
  untouched w (snd (callTool env config request w)) /\
  exists evs,
    trace (snd (callTool env config request w)) = evs ++ trace w /\
    searches evs =
      (if reaches_search config request then [search_options config request] else []).
Proof.
  split.
  - exact (callTool_untouched request w).
  - unfold reaches_search, search_options, callTool, executeDocsSearch.
    autounfold with program.
    destruct (req_name request =? toolName config)%string,
             (js_truthy (req_arguments request)),
             (typeof_object (req_arguments request)),
             (js_truthy (get_prop (req_arguments request) "query"));
      run_program; (eexists; split; [ trace_suffix | reflexivity ]).
Qed.

Lemma message_or_string_not_empty e : message_or_string env e <> EmptyString.
Proof.
  unfold message_or_string.
  destruct (String.eqb_spec (err_message env e) EmptyString) as [_ | Hne]; [ | exact Hne ].
  destruct e; discriminate.
Qed.

(** Every error that leaves [executeDocsSearch] is an [McpError] with the
    code [MethodNotFound], made from an error of the search call: its
    message is "Error executing docs search: " followed by the message of
    that error, or by its name when the message is empty, so what follows
    the colon is never empty.  The cause has been written to the console. *)
Theorem executeDocsSearch_wraps_every_error
    (args : JsVal) (w : World) (e : Err) (w' : World) :
  executeDocsSearch env config args w = (Throw e, w') ->
  exists cause,
    e = McpError MethodNotFound
          ("Error executing docs search: " +:+ message_or_string env cause) /\
    message_or_string env cause <> EmptyString /\
    trace w' =
      Console (MsgErr "Error executing docs search:" cause)
      :: Search {| so_path := dataDir config; so_query := get_prop args "query";
                   so_maxTokens := 10000 |}
      :: Console (MsgOptions {| so_path := dataDir config; so_query := get_prop args "query";
                                so_maxTokens := 10000 |})
      :: trace w.
Proof.
  unfold executeDocsSearch. run_program; intros H; simplify_eq.
  eexists. split; [ reflexivity | split; [ apply message_or_string_not_empty | reflexivity ] ].
Qed.

End Server.

Lemma main_stops_when_the_data_directory_cannot_be_ensured_witness :
  fst (main read_only_env (docs_config acme_url None 5) bare_world) = Exit 1 /\
  history (snd (main read_only_env (docs_config acme_url None 5) bare_world)) =
    history bare_world ++
    [ EnsureDir;
      Console (MsgErr "Failed to ensure data directory exists"
                 (Error "EROFS: read-only file system")) ] /\
  dataDirTree (snd (main read_only_env (docs_config acme_url None 5) bare_world)) =
    dataDirTree bare_world.
Proof.
  apply (main_stops_when_the_data_directory_cannot_be_ensured
           read_only_env (docs_config acme_url None 5) bare_world
           (Error "EROFS: read-only file system"));
    reflexivity.
Defined.

Lemma runtime_without_repository_serves_the_directory_as_found_witness :
  untouched (fresh_world (Some docs_tree) false None)
    (snd (run fair_env (docs_config None (Some "/srv/docs") 0)
            (fresh_world (Some docs_tree) false None))) /\
  (exists evs,
     trace (snd (run fair_env (docs_config None (Some "/srv/docs") 0)
                   (fresh_world (Some docs_tree) false None)))
     = evs ++ trace (fresh_world (Some docs_tree) false None) /\
     Forall console_or_connect evs) /\
  ((forall calls, connect_error fair_env calls = None) ->
   fst (run fair_env (docs_config None (Some "/srv/docs") 0)
          (fresh_world (Some docs_tree) false None)) = Ret tt) /\
  (forall e, (forall calls, connect_error fair_env calls = Some e) ->
             fst (run fair_env (docs_config None (Some "/srv/docs") 0)
                    (fresh_world (Some docs_tree) false None)) = Exit 1).
Proof.
  apply (runtime_without_repository_serves_the_directory_as_found
           fair_env (docs_config None (Some "/srv/docs") 0)
           (fresh_world (Some docs_tree) false None));
    [ discriminate | reflexivity ].
Defined.

Lemma runtime_clone_failure_ends_the_process_witness :
  fst (run offline_env (docs_config acme_url None 5) (fresh_world (Some ∅) false None)) = Exit 1 /\
  exists evs,
    trace (snd (run offline_env (docs_config acme_url None 5) (fresh_world (Some ∅) false None)))
    = evs ++ trace (fresh_world (Some ∅) false None) /\
    Forall (fun ev => ev <> Connect) evs.
Proof.
  apply (runtime_clone_failure_ends_the_process
           offline_env (docs_config acme_url None 5) (fresh_world (Some ∅) false None)
           (Error "ENOTFOUND"));
    intros; reflexivity.
Defined.

(** A data directory that holds nothing but a sub-directory without files:
    it is emptied before the clone. *)
Lemma runtime_first_clone_replaces_the_directory_witness :
  exists w' evs,
    run empty_guides_env (docs_config acme_url None 5) (fresh_world (Some ∅) false None)
    = (Ret tt, w') /\
    dataDirTree w' = Some docs_tree /\
    dataDirRepo w' = true /\
    trace w' = evs ++ trace (fresh_world (Some ∅) false None) /\
    In (GitClone (gitUrl (docs_config acme_url None 5))
                 (gitRef (docs_config acme_url None 5)) 1 (Some ∅)) evs /\
    (In EmptyDir evs <-> (∅ : Tree) <> ∅ \/ ["guides"%string] <> []).
Proof.
  apply (runtime_first_clone_replaces_the_directory
           empty_guides_env (docs_config acme_url None 5) (fresh_world (Some ∅) false None)
           ∅ docs_tree ["guides"%string]);
    intros; reflexivity.
Defined.

Lemma run_on_clone_starts_scheduler_witness :
  exists evs,
    trace (snd (run fair_env (docs_config acme_url None 5)
                  (fresh_world (Some docs_tree) true None)))
    = evs ++ trace (fresh_world (Some docs_tree) true None) /\
    length (List.filter is_cycle_start evs) = 1%nat /\
    length (List.filter is_timeout evs) = 1%nat /\
    updateTimer (snd (run fair_env (docs_config acme_url None 5)
                        (fresh_world (Some docs_tree) true None)))
    = Some (nextTimer (fresh_world (Some docs_tree) true None)) /\
    is_Some (timers (snd (run fair_env (docs_config acme_url None 5)
                            (fresh_world (Some docs_tree) true None)))
             !! nextTimer (fresh_world (Some docs_tree) true None)).
Proof.
  apply (run_on_clone_starts_scheduler
           fair_env (docs_config acme_url None 5) eq_refl eq_refl
           (fresh_world (Some docs_tree) true None));
    intros; reflexivity.
Defined.

Lemma cycles_are_spaced_witness :
  1%nat = nextTimer scheduled_world /\
  timers (fired fair_env (docs_config acme_url None 5) 0 300000 scheduled_world) =
    {[ 1%nat :=
         (clock (fired fair_env (docs_config acme_url None 5) 0 300000 scheduled_world)
          + timer_delay (autoUpdateInterval (docs_config acme_url None 5) * 60 * 1000))%Z ]} /\
  (300000 <= clock (fired fair_env (docs_config acme_url None 5) 0 300000 scheduled_world)
   < 600006)%Z /\
  (300000 + timer_delay (autoUpdateInterval (docs_config acme_url None 5) * 60 * 1000)
   <= 600006)%Z /\
  ((autoUpdateInterval (docs_config acme_url None 5) * 60 * 1000 <= TIMEOUT_MAX)%Z ->
   (300000 + autoUpdateInterval (docs_config acme_url None 5) * 60 * 1000 <= 600006)%Z) /\
  ((TIMEOUT_MAX < autoUpdateInterval (docs_config acme_url None 5) * 60 * 1000)%Z ->
   timers (fired fair_env (docs_config acme_url None 5) 0 300000 scheduled_world) =
     {[ 1%nat :=
          (clock (fired fair_env (docs_config acme_url None 5) 0 300000 scheduled_world)
           + 1)%Z ]}).
Proof.
  apply (cycles_are_spaced
           fair_env (docs_config acme_url None 5) eq_refl eq_refl
           0%nat 1%nat 300000%Z 600006%Z 300000%Z
           scheduled_world
           (fired fair_env (docs_config acme_url None 5) 0 300000 scheduled_world)
           (fired fair_env (docs_config acme_url None 5) 1 600006
              (fired fair_env (docs_config acme_url None 5) 0 300000 scheduled_world))
           (Ret tt) (Ret tt));
    vm_compute; reflexivity.
Defined.

Lemma serving_has_one_pending_timeout_at_most_witness :
  one_timer (snd (main fair_env (docs_config acme_url None 5)
                    (fresh_world (Some docs_tree) true None))) /\
  is_Some (dataDirTree (snd (main fair_env (docs_config acme_url None 5)
                               (fresh_world (Some docs_tree) true None)))).
Proof.
  apply (serving_has_one_pending_timeout_at_most fair_env (docs_config acme_url None 5)).
  apply (serving_start fair_env (docs_config acme_url None 5)
           (fresh_world (Some docs_tree) true None));
    [ reflexivity | reflexivity | reflexivity | vm_compute; reflexivity ].
Defined.

Lemma tool_call_validates_its_arguments_witness :
  fst (callTool fair_env (docs_config acme_url None 0)
         (install_request [("page", JNum 2)]) (serving_world (Some docs_tree) false))
  = Ret {| text := "Error executing search_docs: Query is required in arguments";
           isError := true |}.
Proof.
  apply (proj2 (tool_call_validates_its_arguments
                  fair_env (docs_config acme_url None 0)
                  (install_request [("page", JNum 2)]) (serving_world (Some docs_tree) false)
                  eq_refl));
    reflexivity.
Defined.

Lemma executeDocsSearch_wraps_every_error_witness :
  exists cause,
    McpError MethodNotFound "Error executing docs search: search failed"
    = McpError MethodNotFound
        ("Error executing docs search: " +:+ message_or_string offline_env cause) /\
    message_or_string offline_env cause <> EmptyString /\
    trace (snd (executeDocsSearch offline_env (docs_config acme_url None 0)
                  (JObj [("query", JStr "install")]) (serving_world (Some docs_tree) false)))
    = Console (MsgErr "Error executing docs search:" cause)
      :: Search {| so_path := dataDir (docs_config acme_url None 0);
                   so_query := get_prop (JObj [("query", JStr "install")]) "query";
                   so_maxTokens := 10000 |}
      :: Console (MsgOptions {| so_path := dataDir (docs_config acme_url None 0);
                                so_query := get_prop (JObj [("query", JStr "install")]) "query";
                                so_maxTokens := 10000 |})
      :: trace (serving_world (Some docs_tree) false).
Proof.
  apply (executeDocsSearch_wraps_every_error
           offline_env (docs_config acme_url None 0)
           (JObj [("query", JStr "install")]) (serving_world (Some docs_tree) false)).
  vm_compute. reflexivity.
Defined.
